(** * gracehttp: graceful shutdown and restart of an HTTP server

    A shallow embedding of [server.go] (package [gracehttp]) and the
    properties of its listener acquisition, TLS start-up, signal dispatch,
    successor spawning and shutdown synchronisation.

    Sequential code (everything between two blocking operations) is written
    in a small state monad over the process memory, with Go panics as a
    second outcome.  The two goroutines of [Serve] (the caller's goroutine
    and [handleSignals]) are control-flow locations at the blocking
    operations of the source, advanced by an executable step function. *)

From Stdlib Require Import ZArith String Ascii List Lia.
From stdpp Require Import base option list gmap strings.

Local Open Scope string_scope.
Local Open Scope list_scope.

(** ** Constants (server.go, lines 17-21) *)

Definition GRACEFUL_ENVIRON_KEY : string := "IS_GRACEFUL".
Definition GRACEFUL_ENVIRON_STRING : string := GRACEFUL_ENVIRON_KEY ++ "=1".
Definition GRACEFUL_LISTENER_FD : Z := 3.

(** ** The process environment

    [os.Environ()] is a list of ["key=value"] strings.  [os.Getenv] looks a
    key up in it: the entry is cut at its first ['='], the first entry of
    the key wins, and a missing key reads as the empty string. *)

Fixpoint cut_entry (s : string) : option (string * string) :=
  match s with
  | EmptyString => None
  | String c rest =>
      if Ascii.eqb c "="%char then Some (EmptyString, rest)
      else match cut_entry rest with
           | Some (k, v) => Some (String c k, v)
           | None => None
           end
  end.

Fixpoint Getenv (key : string) (environ : list string) : string :=
  match environ with
  | [] => ""
  | entry :: rest =>
      match cut_entry entry with
      | Some (k, v) => if String.eqb k key then v else Getenv key rest
      | None => Getenv key rest
      end
  end.

(** The test of [NewServer] (lines 38-41): graceful mode is on as soon as
    the marker variable reads non-empty. *)
Definition isGraceful_of_environ (environ : list string) : bool :=
  negb (String.eqb (Getenv GRACEFUL_ENVIRON_KEY environ) "").

(** An entry that, on its own, switches graceful mode on: an entry of the
    marker variable with a non-empty value. *)
Definition is_marker_entry (entry : string) : bool :=
  isGraceful_of_environ [entry].

Definition marker_entries (environ : list string) : nat :=
  length (List.filter is_marker_entry environ).

(** Occurrences of one exact string in an environment. *)
Definition occurrences (s : string) (environ : list string) : nat :=
  length (List.filter (String.eqb s) environ).

(** The environment of the successor (lines 194-200): the loop appends every
    entry that differs from [GRACEFUL_ENVIRON_STRING], then the marker is
    appended. *)
Definition successor_env_loop (environ : list string) (envs : list string)
  : list string :=
  fold_left
    (fun envs value =>
       if negb (String.eqb value GRACEFUL_ENVIRON_STRING)
       then envs ++ [value] else envs)
    environ envs.

Definition successor_env (environ : list string) : list string :=
  successor_env_loop environ [] ++ [GRACEFUL_ENVIRON_STRING].

(** The environment after [n] restarts in a row, each successor being
    started from the environment its parent built for it. *)
Definition env_after_restarts (n : nat) (environ : list string) : list string :=
  Nat.iter n successor_env environ.

(** ** Data model *)

(** Go error values, by their message; [result] is a Go [(T, error)] return
    of which exactly one side is meaningful. *)
Definition error := string.

Inductive result (A : Type) : Type :=
| Ok (a : A)
| Err (e : error).
Arguments Ok {A} a.
Arguments Err {A} e.

(** [*tls.Config] objects live in a store and are referred to by address,
    so that the caller of [ListenAndServeTLS] and the server share one
    object.  [NextProtos = None] is the nil slice. *)
Definition Certificate := string.
Definition zeroCertificate : Certificate := "".

Record Config : Type := mkConfig {
  NextProtos : option (list string);
  Certificates : list Certificate;
}.

Definition emptyConfig : Config :=
  {| NextProtos := None; Certificates := [] |}.

(** Values of the interface [net.Listener]: a socket listener of [net]
    ([*net.TCPListener] or [*net.UnixListener]) over an open socket, or the
    listener of [tls.NewListener] over an inner listener (an interface
    value, which may be nil) and a config. *)
Inductive Network : Type := tcp | unix.

#[warnings="-register-all"] Inductive Listener : Type :=
| SocketListener (network : Network) (sock : nat)
| TLSListener (inner : option Listener) (config : nat).

(** [syscall.ProcAttr], as far as [startNewProcess] fills it in. *)
Record ProcAttr : Type := mkProcAttr {
  Env : list string;
  Files : list Z;
  Setsid : bool;
}.

(** The struct [Server] (lines 24-35) with the fields of the embedded
    [*http.Server] that the package reads; [None] is Go's nil.  The two
    channels are part of the process state [Proc] below. *)
Record Server : Type := mkServer {
  Addr : string;
  TLSConfig : option nat;
  ReadTimeout : Z;
  WriteTimeout : Z;
  listener : option Listener;
  tlsListener : option Listener;
  isGraceful : bool;
}.

(** Calls that leave the package, in the order they are made. *)
Inductive Event : Type :=
| EvListen (addr : string)
| EvFileListener (fd : Z)
| EvFile (sock : nat)
| EvLoadX509KeyPair (certFile keyFile : string)
| EvStartProcess (argv0 : string) (argv : list string) (attr : ProcAttr)
| EvShutdown
| EvServe (l : option Listener)
| EvLog (level : string) (format : string).

(** The operating system and the libraries behind those calls.  Every answer
    may depend on the history of calls made so far. *)
Record OS : Type := mkOS {
  Environ : list string;
  Args : list string;
  net_Listen : list Event -> string -> result nat;
  net_FileListener : list Event -> Z -> result (Network * nat);
  TCPListener_File : list Event -> nat -> result Z;
  LoadX509KeyPair : list Event -> string -> string -> result Certificate;
  StartProcess : list Event -> string -> list string -> ProcAttr -> result Z;
}.

(** The memory of the process: the one [Server] object, the [tls.Config]
    objects, and the calls made so far. *)
Record Mem : Type := mkMem {
  server : Server;
  configs : gmap nat Config;
  trace : list Event;
}.

(** ** Sequential code: state and panics *)

Inductive outcome (A : Type) : Type :=
| Done (a : A)
| Panic (msg : string).
Arguments Done {A} a.
Arguments Panic {A} msg.

Definition M (A : Type) : Type := Mem -> outcome A * Mem.

#[global] Instance M_ret : MRet M := fun A (a : A) m => (Done a, m).

#[global] Instance M_bind : MBind M :=
  fun A B (k : A -> M B) (c : M A) m =>
    match c m with
    | (Done a, m') => k a m'
    | (Panic msg, m') => (Panic msg, m')
    end.

Definition panic {A} (msg : string) : M A := fun m => (Panic msg, m).

Definition get_server : M Server := fun m => (Done (server m), m).

Definition get_trace : M (list Event) := fun m => (Done (trace m), m).

Definition set_server (srv : Server) : M unit :=
  fun m => (Done tt, {| server := srv; configs := configs m; trace := trace m |}).

Definition emit (ev : Event) : M unit :=
  fun m => (Done tt,
            {| server := server m; configs := configs m; trace := trace m ++ [ev] |}).

Definition log (level format : string) : M unit := emit (EvLog level format).

(** [&tls.Config{}]: a new object at an unused address. *)
Definition new_config : M nat :=
  fun m =>
    let p := fresh (dom (configs m)) in
    (Done p, {| server := server m;
                configs := <[p := emptyConfig]> (configs m);
                trace := trace m |}).

(** Reading and writing through a [*tls.Config]; an address that holds no
    object behaves like the nil pointer. *)
Definition load_config (p : nat) : M Config :=
  fun m =>
    match configs m !! p with
    | Some c => (Done c, m)
    | None => (Panic "invalid memory address or nil pointer dereference", m)
    end.

Definition store_config (p : nat) (c : Config) : M unit :=
  fun m => (Done tt, {| server := server m;
                        configs := <[p := c]> (configs m);
                        trace := trace m |}).

(** ** Signals ([syscall.Signal] numbers) *)

Definition SIGHUP : Z := 1.
Definition SIGINT : Z := 2.
Definition SIGQUIT : Z := 3.
Definition SIGTERM : Z := 15.

(** ** The goroutines of a serving process

    The caller's goroutine is inside [Serve]; [handleSignals] runs beside
    it.  Their locations are the blocking operations of the source.  What
    the caller does once [Serve] has returned is not the package's business:
    the process is followed for as long as it lives. *)
Inductive MainLoc : Type :=
| MServing                    (* lines 111/113: inside srv.Server.Serve *)
| MWaiting (err : error)      (* line 117: <-srv.shutdownChan *)
| MReturned (err : option error).  (* line 120, or an earlier return *)

Inductive SigLoc : Type :=
| SIdle                       (* handleSignals has not been started *)
| SReceiving                  (* line 158: sig = <-srv.signalChan *)
| SDraining                   (* line 178: inside srv.Shutdown *)
| SSending                    (* line 182: srv.shutdownChan <- true *)
| SReturned.                  (* line 175: the end of handleSignals *)

Record Proc : Type := mkProc {
  mem : Mem;
  mainLoc : MainLoc;
  sigLoc : SigLoc;
  panicked : option string;   (* an unrecovered panic ends the process *)
  published : nat;            (* values that went through shutdownChan *)
}.

Section Program.

Context (os : OS).

Definition NewServer (addr : string) (readTimeout writeTimeout : Z) : Server :=
  {| Addr := addr;
     TLSConfig := None;
     ReadTimeout := readTimeout;
     WriteTimeout := writeTimeout;
     listener := None;
     tlsListener := None;
     isGraceful := isGraceful_of_environ (Environ os) |}.

(** Lines 123-142. *)
Definition getNetListener (addr : string) : M (result Listener) :=
  srv ← get_server;
  if isGraceful srv then
    h ← get_trace;
    emit (EvFileListener GRACEFUL_LISTENER_FD);;
    match net_FileListener os h GRACEFUL_LISTENER_FD with
    | Err e => mret (Err ("net.FileListener error: " ++ e)%string)
    | Ok (network, sock) => mret (Ok (SocketListener network sock))
    end
  else
    h ← get_trace;
    emit (EvListen addr);;
    match net_Listen os h addr with
    | Err e => mret (Err ("net.Listen error: " ++ e)%string)
    | Ok sock => mret (Ok (SocketListener tcp sock))
    end.

(** Lines 58-72. *)
Definition InitListener : M (result Listener) :=
  srv ← get_server;
  match listener srv with
  | None =>
      if String.eqb (Addr srv) "" then mret (Err "listen to nil addr")
      else
        r ← getNetListener (Addr srv);
        match r with
        | Err e => mret (Err e)
        | Ok ln =>
            set_server {| Addr := Addr srv; TLSConfig := TLSConfig srv;
                          ReadTimeout := ReadTimeout srv;
                          WriteTimeout := WriteTimeout srv;
                          listener := Some ln;
                          tlsListener := tlsListener srv;
                          isGraceful := isGraceful srv |};;
            mret (Ok ln)
        end
  | Some ln => mret (Ok ln)
  end.

(** Lines 220-226.  The type assertion has no second result, so it panics
    on anything that is not a [*net.TCPListener]. *)
Definition getTCPListenerFd : M (result Z) :=
  srv ← get_server;
  match listener srv with
  | Some (SocketListener tcp sock) =>
      h ← get_trace;
      emit (EvFile sock);;
      match TCPListener_File os h sock with
      | Err e => mret (Err e)
      | Ok fd => mret (Ok fd)
      end
  | Some (SocketListener unix _) =>
      panic "interface conversion: net.Listener is *net.UnixListener, not *net.TCPListener"
  | Some (TLSListener _ _) =>
      panic "interface conversion: net.Listener is *tls.listener, not *net.TCPListener"
  | None =>
      panic "interface conversion: net.Listener is nil, not *net.TCPListener"
  end.

(** Lines 187-218.  The standard streams are descriptors 0, 1 and 2. *)
Definition startNewProcess : M (result Z) :=
  r ← getTCPListenerFd;
  match r with
  | Err e => mret (Err ("failed to get socket file descriptor: " ++ e)%string)
  | Ok listenerFd =>
      let envs := successor_env (Environ os) in
      let execSpec := {| Env := envs;
                         Files := [0; 1; 2; listenerFd]%Z;
                         Setsid := true |} in
      h ← get_trace;
      emit (EvStartProcess (hd "" (Args os)) (Args os) execSpec);;
      match StartProcess os h (hd "" (Args os)) (Args os) execSpec with
      | Err e => mret (Err ("failed to forkexec: " ++ e)%string)
      | Ok fork => mret (Ok fork)
      end
  end.

(** [shutdownHTTPServer] (lines 177-184) blocks twice: inside
    [srv.Shutdown], and on the send.  [shutdownHTTPServer] runs up to the
    first, [shutdownHTTPServer_drained] from its return to the second or to
    the end of the function, after which both callers are back at the head
    of the loop of [handleSignals]. *)
Definition shutdownHTTPServer : M SigLoc :=
  emit EvShutdown;;
  mret SDraining.

Definition shutdownHTTPServer_drained (err : option error) : M SigLoc :=
  match err with
  | Some _ =>
      log "warn" "HTTP server shutdown error: %v";;
      mret SReceiving
  | None =>
      log "info" "HTTP server shutdown success.";;
      mret SSending
  end.

(** One turn of the loop of [handleSignals] after the receive (lines
    159-173); the result is where the goroutine blocks next. *)
Definition handleSignals_switch (sig : Z) : M SigLoc :=
  if (sig =? SIGQUIT)%Z || (sig =? SIGINT)%Z then
    log "info" "received %s, graceful shutting down HTTP server.";;
    shutdownHTTPServer
  else if (sig =? SIGHUP)%Z || (sig =? SIGTERM)%Z then
    log "info" "received %s, graceful restarting HTTP server.";;
    r ← startNewProcess;
    match r with
    | Err _ =>
        log "warn" "start new process failed: %v, continue serving.";;
        mret SReceiving
    | Ok _ =>
        log "info" "start new process successed, the new pid is %d.";;
        shutdownHTTPServer
    end
  else mret SReceiving.

(** [Serve] (lines 107-121) up to its first blocking call: the signal
    goroutine is started and the engine serves on the secure listener when
    there is one, else on the plain one. *)
Definition Serve (m : Mem) : Proc :=
  let l := match tlsListener (server m) with
           | Some tl => Some tl
           | None => listener (server m)
           end in
  {| mem := {| server := server m; configs := configs m;
               trace := trace m ++ [EvServe l] |};
     mainLoc := MServing;
     sigLoc := SReceiving;
     panicked := None;
     published := 0 |}.

(** A start operation that ends before [Serve]: it returns its error, or
    the process is ended by a panic (the locations are then of no
    account). *)
Definition not_served (o : outcome error) (m : Mem) : Proc :=
  {| mem := m;
     mainLoc := match o with
                | Done e => MReturned (Some e)
                | Panic _ => MServing
                end;
     sigLoc := SIdle;
     panicked := match o with Done _ => None | Panic msg => Some msg end;
     published := 0 |}.

(** Lines 74-80. *)
Definition ListenAndServe (m : Mem) : Proc :=
  match InitListener m with
  | (Done (Err err), m') => not_served (Done err) m'
  | (Done (Ok _), m') => Serve m'
  | (Panic msg, m') => not_served (Panic msg) m'
  end.

(** [ListenAndServeTLS] up to the call of [Serve] (lines 83-103); the
    result is the error it returns early with, if any. *)
Definition ListenAndServeTLS_setup (certFile keyFile : string) : M (option error) :=
  srv ← get_server;
  config ← match TLSConfig srv with
           | Some p => mret p
           | None => new_config
           end;
  c ← load_config config;
  (match NextProtos c with
   | None => store_config config {| NextProtos := Some ["h2"; "http/1.1"];
                                    Certificates := Certificates c |}
   | Some _ => mret tt
   end);;
  c ← load_config config;
  store_config config {| NextProtos := NextProtos c;
                         Certificates := [zeroCertificate] |};;
  h ← get_trace;
  emit (EvLoadX509KeyPair certFile keyFile);;
  let loaded := LoadX509KeyPair os h certFile keyFile in
  c ← load_config config;
  store_config config
    {| NextProtos := NextProtos c;
       Certificates := <[0%nat := match loaded with
                                  | Ok cert => cert
                                  | Err _ => zeroCertificate
                                  end]> (Certificates c) |};;
  match loaded with
  | Err err => mret (Some err)
  | Ok _ =>
      r ← InitListener;
      match r with
      | Err err => mret (Some err)
      | Ok _ =>
          srv ← get_server;
          set_server {| Addr := Addr srv; TLSConfig := TLSConfig srv;
                        ReadTimeout := ReadTimeout srv;
                        WriteTimeout := WriteTimeout srv;
                        listener := listener srv;
                        tlsListener := Some (TLSListener (listener srv) config);
                        isGraceful := isGraceful srv |};;
          mret None
      end
  end.

(** Lines 82-105. *)
Definition ListenAndServeTLS (certFile keyFile : string) (m : Mem) : Proc :=
  match ListenAndServeTLS_setup certFile keyFile m with
  | (Done (Some err), m') => not_served (Done err) m'
  | (Done None, m') => Serve m'
  | (Panic msg, m') => not_served (Panic msg) m'
  end.

(** ** Steps of a serving process

    What moves the two goroutines on: a signal delivered on [signalChan]
    (which has no buffer, so only a goroutine blocked in the receive takes
    one), the return of [srv.Shutdown], the return of [srv.Server.Serve],
    and the meeting of the send and the receive on [shutdownChan] (which has
    no buffer either).  [step] is [None] when the action cannot happen in
    the state. *)
Inductive Action : Type :=
| Deliver (sig : Z)
| Drained (err : option error)
| ServeReturns (err : error)
| Handshake.

Definition run_sig (c : M SigLoc) (p : Proc) : Proc :=
  match c (mem p) with
  | (Done l, m') =>
      {| mem := m'; mainLoc := mainLoc p; sigLoc := l;
         panicked := None; published := published p |}
  | (Panic msg, m') =>
      {| mem := m'; mainLoc := mainLoc p; sigLoc := sigLoc p;
         panicked := Some msg; published := published p |}
  end.

Definition step (a : Action) (p : Proc) : option Proc :=
  match panicked p with
  | Some _ => None
  | None =>
      match a, sigLoc p, mainLoc p with
      | Deliver sig, SReceiving, _ => Some (run_sig (handleSignals_switch sig) p)
      | Drained err, SDraining, _ => Some (run_sig (shutdownHTTPServer_drained err) p)
      | ServeReturns err, _, MServing =>
          Some {| mem := {| server := server (mem p); configs := configs (mem p);
                            trace := trace (mem p)
                                     ++ [EvLog "info" "waiting for connections closed."] |};
                  mainLoc := MWaiting err; sigLoc := sigLoc p;
                  panicked := None; published := published p |}
      | Handshake, SSending, MWaiting err =>
          Some {| mem := {| server := server (mem p); configs := configs (mem p);
                            trace := trace (mem p)
                                     ++ [EvLog "info" "all connections closed."] |};
                  mainLoc := MReturned (Some err); sigLoc := SReceiving;
                  panicked := None; published := S (published p) |}
      | _, _, _ => None
      end
  end.

Fixpoint run (acts : list Action) (p : Proc) : option Proc :=
  match acts with
  | [] => Some p
  | a :: rest =>
      match step a p with
      | Some p' => run rest p'
      | None => None
      end
  end.

End Program.

(** * Observations used in the statements *)

Definition not_marker (value : string) : bool :=
  negb (String.eqb value GRACEFUL_ENVIRON_STRING).

(** The environments of the [StartProcess] calls of a trace. *)
Fixpoint spawned_envs (t : list Event) : list (list string) :=
  match t with
  | [] => []
  | EvStartProcess _ _ attr :: rest => Env attr :: spawned_envs rest
  | _ :: rest => spawned_envs rest
  end.

(** A restart chain that begins with no other entry of the marker variable
    than the marker itself never holds more than that one entry. *)
Definition only_exact_marker (environ : list string) : Prop :=
  List.Forall (fun e => is_marker_entry e = true -> e = GRACEFUL_ENVIRON_STRING) environ.

(** What [getNetListener] answers, given what the operating system does. *)
Definition inherited (os : OS) (t : list Event) : result Listener :=
  match net_FileListener os t GRACEFUL_LISTENER_FD with
  | Ok (network, sock) => Ok (SocketListener network sock)
  | Err e => Err ("net.FileListener error: " ++ e)%string
  end.

Definition bound (os : OS) (t : list Event) (addr : string) : result Listener :=
  match net_Listen os t addr with
  | Ok sock => Ok (SocketListener tcp sock)
  | Err e => Err ("net.Listen error: " ++ e)%string
  end.

Definition with_listener (srv : Server) (ln : Listener) : Server :=
  {| Addr := Addr srv; TLSConfig := TLSConfig srv;
     ReadTimeout := ReadTimeout srv; WriteTimeout := WriteTimeout srv;
     listener := Some ln; tlsListener := tlsListener srv;
     isGraceful := isGraceful srv |}.

(** The attributes [startNewProcess] starts the successor with. *)
Definition execSpec_of (os : OS) (listenerFd : Z) : ProcAttr :=
  {| Env := successor_env (Environ os);
     Files := [0; 1; 2; listenerFd]%Z;
     Setsid := true |}.

Definition add_events (m : Mem) (evs : list Event) : Mem :=
  {| server := server m; configs := configs m; trace := trace m ++ evs |}.


(** Calls of [srv.Shutdown] in a trace. *)
Fixpoint shutdown_calls (t : list Event) : nat :=
  match t with
  | [] => 0
  | EvShutdown :: rest => S (shutdown_calls rest)
  | _ :: rest => shutdown_calls rest
  end.

Definition returns_error {A} (o : outcome (result A)) : bool :=
  match o with
  | Done (Err _) => true
  | _ => false
  end.

Definition successful_drain (a : Action) : bool :=
  match a with
  | Drained None => true
  | _ => false
  end.

Definition returned (l : MainLoc) : bool :=
  match l with
  | MReturned _ => true
  | _ => false
  end.

(** The signal goroutine is always at one of its three blocking operations. *)
Definition in_loop (l : SigLoc) : Prop :=
  l = SReceiving \/ l = SDraining \/ l = SSending.

(** One publication has happened exactly when [Serve] has returned. *)
Definition publication_inv (p : Proc) : Prop :=
  published p = if returned (mainLoc p) then 1 else 0.

(** No action can happen in [p] any more: whatever is blocked stays blocked. *)
Definition stuck (os : OS) (p : Proc) : Prop :=
  forall a, step os a p = None.

(** ** Example processes *)

Definition fresh_mem (srv : Server) : Mem :=
  {| server := srv; configs := ∅; trace := [] |}.

(** A cold start: no marker in the environment, binding succeeds. *)
Definition cold_os : OS :=
  {| Environ := ["PATH=/bin"];
     Args := ["/srv/app"; "-port"; "8080"];
     net_Listen := fun _ _ => Ok 7%nat;
     net_FileListener := fun _ _ => Err "bad file descriptor";
     TCPListener_File := fun _ _ => Ok 9%Z;
     LoadX509KeyPair := fun _ _ _ => Ok "pair";
     StartProcess := fun _ _ _ _ => Ok 4242%Z |}.

(** A successor: the marker is set and descriptor 3 is a TCP socket. *)
Definition inherit_os : OS :=
  {| Environ := ["PATH=/bin"; "IS_GRACEFUL=1"];
     Args := ["/srv/app"; "-port"; "8080"];
     net_Listen := fun _ _ => Err "address already in use";
     net_FileListener := fun _ _ => Ok (tcp, 7%nat);
     TCPListener_File := fun _ _ => Ok 9%Z;
     LoadX509KeyPair := fun _ _ _ => Ok "pair";
     StartProcess := fun _ _ _ _ => Ok 4243%Z |}.

(** A process started with the marker set and a Unix-domain socket at
    descriptor 3. *)
Definition inherit_unix_os : OS :=
  {| Environ := ["PATH=/bin"; "IS_GRACEFUL=1"];
     Args := ["/srv/app"];
     net_Listen := fun _ _ => Err "address already in use";
     net_FileListener := fun _ _ => Ok (unix, 5%nat);
     TCPListener_File := fun _ _ => Ok 9%Z;
     LoadX509KeyPair := fun _ _ _ => Ok "pair";
     StartProcess := fun _ _ _ _ => Ok 4244%Z |}.

(** A cold start on which duplicating the descriptor and loading the key
    pair both fail. *)
Definition failing_os : OS :=
  {| Environ := ["PATH=/bin"];
     Args := ["/srv/app"];
     net_Listen := fun _ _ => Ok 7%nat;
     net_FileListener := fun _ _ => Err "bad file descriptor";
     TCPListener_File := fun _ _ => Err "too many open files";
     LoadX509KeyPair := fun _ _ _ => Err "open cert.pem: no such file or directory";
     StartProcess := fun _ _ _ _ => Err "exec format error" |}.

Definition cold_start_mem : Mem := fresh_mem (NewServer cold_os ":8080" 0 0).

Definition cold_proc : Proc := ListenAndServe cold_os cold_start_mem.

(** Successors constructed with and without an address. *)
Definition inherit_mem : Mem := fresh_mem (NewServer inherit_os ":8080" 0 0).

Definition inherit_noaddr_mem : Mem := fresh_mem (NewServer inherit_os "" 0 0).

(** An environment in which the marker variable has another value. *)
Definition other_value_environ : list string := ["PATH=/bin"; "IS_GRACEFUL=yes"].

Definition failing_proc : Proc :=
  ListenAndServe failing_os (fresh_mem (NewServer failing_os ":8080" 0 0)).

Definition unix_proc : Proc :=
  ListenAndServe inherit_unix_os (fresh_mem (NewServer inherit_unix_os ":8080" 0 0)).

Definition cold_mem : Mem := snd (InitListener cold_os cold_start_mem).


(** An interrupt that shuts the server down. *)
Definition shutdown_run : list Action :=
  [Deliver SIGINT; ServeReturns "http: Server closed"; Drained None; Handshake].

(** The same, followed by a second interrupt whose drain succeeds too. *)
Definition double_shutdown_run : list Action :=
  shutdown_run ++ [Deliver SIGINT; Drained None].

(** The [tls.Config] object as lines 87-93 leave it. *)
Definition prepared_config (c : Config) (loaded : result Certificate) : Config :=
  {| NextProtos := match NextProtos c with
                   | Some protos => Some protos
                   | None => Some ["h2"; "http/1.1"]
                   end;
     Certificates := [match loaded with
                      | Ok cert => cert
                      | Err _ => zeroCertificate
                      end] |}.

Definition with_tlsListener (srv : Server) (tl : Listener) : Server :=
  {| Addr := Addr srv; TLSConfig := TLSConfig srv;
     ReadTimeout := ReadTimeout srv; WriteTimeout := WriteTimeout srv;
     listener := listener srv; tlsListener := Some tl;
     isGraceful := isGraceful srv |}.

(** The memory when [ListenAndServeTLS] gets to its call of
    [InitListener], for the config [c] found at address [p]. *)
Definition after_load (os : OS) (certFile keyFile : string) (m : Mem)
    (p : nat) (c : Config) : Mem :=
  {| server := server m;
     configs := <[p := prepared_config c (LoadX509KeyPair os (trace m) certFile keyFile)]>
                  (configs m);
     trace := trace m ++ [EvLoadX509KeyPair certFile keyFile] |}.

(** A server whose caller has set [TLSConfig] to an object of its own, with
    a negotiation list and an old certificate. *)
Definition caller_config : Config :=
  {| NextProtos := Some ["http/1.1"]; Certificates := ["old pair"] |}.

Definition tls_mem : Mem :=
  {| server := {| Addr := ":8443"; TLSConfig := Some 4%nat;
                  ReadTimeout := 0; WriteTimeout := 0;
                  listener := None; tlsListener := None;
                  isGraceful := isGraceful_of_environ (Environ cold_os) |};
     configs := {[ 4%nat := caller_config ]};
     trace := [] |}.

(** * Further observations *)

(** The entry belongs to the variable [key]. *)
Definition has_key (key entry : string) : bool :=
  match cut_entry entry with
  | Some (k, _) => String.eqb k key
  | None => false
  end.

(** The signals [handleSignals] subscribes to (lines 147-155). *)
Definition notified_signals : list Z := [SIGQUIT; SIGINT; SIGHUP; SIGTERM].

(** Calls made on behalf of a handoff. *)
Definition handoff_event (ev : Event) : bool :=
  match ev with
  | EvFile _ | EvStartProcess _ _ _ => true
  | _ => false
  end.

(** Actions that deliver a restart signal, or any subscribed signal. *)
Definition delivers_restart (a : Action) : bool :=
  match a with
  | Deliver sig => (sig =? SIGHUP)%Z || (sig =? SIGTERM)%Z
  | _ => false
  end.

Definition delivers_notified (a : Action) : bool :=
  match a with
  | Deliver sig =>
      (sig =? SIGQUIT)%Z || (sig =? SIGINT)%Z || (sig =? SIGHUP)%Z || (sig =? SIGTERM)%Z
  | _ => false
  end.

(** The errors with which the engine returned, in order. *)
Fixpoint engine_returns (acts : list Action) : list error :=
  match acts with
  | [] => []
  | ServeReturns e :: rest => e :: engine_returns rest
  | _ :: rest => engine_returns rest
  end.


(** A cold start on a port that is taken. *)
Definition busy_os : OS :=
  {| Environ := ["PATH=/bin"; "HOME=/root"];
     Args := ["/srv/app"];
     net_Listen := fun _ _ => Err "listen tcp :8080: bind: address already in use";
     net_FileListener := fun _ _ => Err "bad file descriptor";
     TCPListener_File := fun _ _ => Ok 9%Z;
     LoadX509KeyPair := fun _ _ _ => Ok "pair";
     StartProcess := fun _ _ _ _ => Ok 4245%Z |}.

Definition busy_mem : Mem := fresh_mem (NewServer busy_os ":8080" 0 0).



(** * Properties *)

(** ** The successor's environment *)

Lemma successor_env_loop_filter (environ envs : list string) :
  successor_env_loop environ envs = envs ++ List.filter not_marker environ.
Proof.
  unfold successor_env_loop.
  revert envs. induction environ as [|value environ IH]; intros envs;
    cbn [fold_left List.filter].
  - now rewrite app_nil_r.
  - fold (not_marker value).
    destruct (not_marker value); rewrite IH.
    + now rewrite <- app_assoc.
    + reflexivity.
Qed.

Lemma successor_env_filter (environ : list string) :
  successor_env environ = List.filter not_marker environ ++ [GRACEFUL_ENVIRON_STRING].
Proof. unfold successor_env. now rewrite successor_env_loop_filter. Qed.

Lemma occurrences_app (s : string) (l1 l2 : list string) :
  occurrences s (l1 ++ l2) = occurrences s l1 + occurrences s l2.
Proof. unfold occurrences. now rewrite List.filter_app, length_app. Qed.

Lemma occurrences_not_marker (environ : list string) :
  occurrences GRACEFUL_ENVIRON_STRING (List.filter not_marker environ) = 0.
Proof.
  unfold occurrences.
  induction environ as [|value environ IH]; cbn [List.filter]; [reflexivity|].
  destruct (not_marker value) eqn:E; [|exact IH].
  cbn [List.filter].
  unfold not_marker in E. rewrite String.eqb_sym in E.
  destruct (String.eqb GRACEFUL_ENVIRON_STRING value); [discriminate | exact IH].
Qed.

Lemma occurrences_marker_alone :
  occurrences GRACEFUL_ENVIRON_STRING [GRACEFUL_ENVIRON_STRING] = 1.
Proof. reflexivity. Qed.

Lemma occurrences_successor_env (environ : list string) :
  occurrences GRACEFUL_ENVIRON_STRING (successor_env environ) = 1.
Proof.
  rewrite successor_env_filter, occurrences_app, occurrences_not_marker.
  apply occurrences_marker_alone.
Qed.

Lemma filter_not_marker_idem (environ : list string) :
  List.filter not_marker (List.filter not_marker environ)
  = List.filter not_marker environ.
Proof.
  induction environ as [|value environ IH]; cbn [List.filter]; [reflexivity|].
  destruct (not_marker value) eqn:E; [cbn [List.filter]; rewrite E|]; now rewrite IH.
Qed.

Lemma others_kept (environ : list string) :
  List.filter not_marker (successor_env environ) = List.filter not_marker environ.
Proof.
  rewrite successor_env_filter, List.filter_app, filter_not_marker_idem.
  replace (List.filter not_marker [GRACEFUL_ENVIRON_STRING]) with (@nil string)
    by reflexivity.
  now rewrite app_nil_r.
Qed.

Lemma last_successor_env (environ : list string) :
  last (successor_env environ) = Some GRACEFUL_ENVIRON_STRING.
Proof. rewrite successor_env_filter. apply last_snoc. Qed.

Lemma marker_entries_successor_env (environ : list string) :
  only_exact_marker environ ->
  marker_entries (successor_env environ) = 1
  /\ only_exact_marker (successor_env environ).
Proof.
  intros H. rewrite successor_env_filter. split.
  - unfold marker_entries. rewrite List.filter_app, length_app.
    replace (List.filter is_marker_entry [GRACEFUL_ENVIRON_STRING])
      with [GRACEFUL_ENVIRON_STRING] by reflexivity.
    replace (List.filter is_marker_entry (List.filter not_marker environ))
      with (@nil string); [reflexivity|].
    induction H as [|e environ He H IH]; cbn [List.filter]; [reflexivity|].
    destruct (not_marker e) eqn:E; [|exact IH].
    cbn [List.filter].
    destruct (is_marker_entry e) eqn:Em; [|exact IH].
    rewrite (He eq_refl) in E. discriminate E.
  - apply List.Forall_app. split.
    + induction H as [|e environ He H IH]; cbn [List.filter]; [constructor|].
      destruct (not_marker e); [constructor|]; assumption.
    + constructor; [reflexivity | constructor].
Qed.

Lemma startNewProcess_trace (os : OS) (m : Mem) :
  exists evs,
    trace (snd (startNewProcess os m)) = trace m ++ evs
    /\ spawned_envs evs = match fst (getTCPListenerFd os m) with
                          | Done (Ok _) => [successor_env (Environ os)]
                          | _ => []
                          end
    /\ server (snd (startNewProcess os m)) = server m
    /\ configs (snd (startNewProcess os m)) = configs m.
Proof.
  unfold startNewProcess, getTCPListenerFd, mbind, M_bind, get_server, get_trace,
    emit, panic, mret, M_ret.
  destruct m as [srv cfgs t]; simpl.
  destruct (listener srv) as [[[|] sock|inner config]|]; simpl;
    try (exists []; rewrite app_nil_r; repeat split; reflexivity).
  destruct (TCPListener_File os t sock) as [fd|e]; simpl.
  - destruct (StartProcess os _ _ _ _); simpl;
      eexists; rewrite <- app_assoc; repeat split; reflexivity.
  - eexists; repeat split; reflexivity.
Qed.

(** C1 (as amended).  Every environment that [startNewProcess] passes to
    [StartProcess] is [successor_env] of the parent's environment; that
    environment holds the exact entry [IS_GRACEFUL=1] once and last,
    whatever the parent's environment and however many restarts came
    before, and every other entry of the parent is passed on in order. *)
Theorem successor_marker_exactly_once :
  forall (os : OS) (m : Mem),
    (exists evs,
        trace (snd (startNewProcess os m)) = trace m ++ evs
        /\ List.Forall (fun envs => envs = successor_env (Environ os))
             (spawned_envs evs))
    /\ (forall environ,
           occurrences GRACEFUL_ENVIRON_STRING (successor_env environ) = 1
           /\ last (successor_env environ) = Some GRACEFUL_ENVIRON_STRING
           /\ List.filter not_marker (successor_env environ)
              = List.filter not_marker environ)
    /\ (forall n environ,
           occurrences GRACEFUL_ENVIRON_STRING (env_after_restarts (S n) environ) = 1).
Proof.
  intros os m. split; [|split].
  - destruct (startNewProcess_trace os m) as (evs & Ht & Hs & _).
    exists evs. split; [exact Ht|]. rewrite Hs.
    destruct (fst (getTCPListenerFd os m)) as [[fd|e]|msg]; repeat constructor.
  - intros environ. split; [apply occurrences_successor_env|].
    split; [apply last_successor_env | apply others_kept].
  - intros n environ. unfold env_after_restarts. simpl.
    apply occurrences_successor_env.
Qed.

(** C1 as stated fails: an entry of the marker variable with another
    non-empty value switches graceful mode on like the marker does, is not
    stripped, and the successor's environment then holds two entries of the
    marker variable. *)
Lemma marker_variable_duplicated :
  isGraceful_of_environ other_value_environ = true
  /\ successor_env other_value_environ
     = ["PATH=/bin"; "IS_GRACEFUL=yes"; "IS_GRACEFUL=1"]
  /\ marker_entries (successor_env other_value_environ) = 2
  /\ marker_entries (successor_env other_value_environ) <> 1.
Proof. repeat split; try reflexivity. vm_compute. discriminate. Qed.

(** In a chain of restarts that began without any entry of the marker
    variable, the successor's environment holds one. *)
Example marker_entries_after_restarts :
  marker_entries (env_after_restarts 3 (Environ cold_os)) = 1
  /\ env_after_restarts 3 (Environ cold_os) = ["PATH=/bin"; "IS_GRACEFUL=1"].
Proof. split; reflexivity. Qed.

(** ** Listener acquisition *)

Ltac go_unfold :=
  unfold mbind, M_bind, mret, M_ret, get_server, get_trace, set_server, emit,
    log, panic, new_config, load_config, store_config in *.

Lemma getNetListener_graceful (os : OS) (addr : string) (m : Mem) :
  isGraceful (server m) = true ->
  getNetListener os addr m
  = (Done (inherited os (trace m)),
     {| server := server m; configs := configs m;
        trace := trace m ++ [EvFileListener GRACEFUL_LISTENER_FD] |}).
Proof.
  intros Hg. unfold getNetListener, inherited. go_unfold. rewrite Hg.
  destruct (net_FileListener os (trace m) GRACEFUL_LISTENER_FD) as [[network sock]|e];
    reflexivity.
Qed.

Lemma getNetListener_cold (os : OS) (addr : string) (m : Mem) :
  isGraceful (server m) = false ->
  getNetListener os addr m
  = (Done (bound os (trace m) addr),
     {| server := server m; configs := configs m;
        trace := trace m ++ [EvListen addr] |}).
Proof.
  intros Hg. unfold getNetListener, bound. go_unfold. rewrite Hg.
  destruct (net_Listen os (trace m) addr) as [sock|e]; reflexivity.
Qed.

Lemma InitListener_acquired (os : OS) (m : Mem) (ln : Listener) :
  listener (server m) = Some ln ->
  InitListener os m = (Done (Ok ln), m).
Proof. intros H. unfold InitListener. go_unfold. now rewrite H. Qed.

Lemma InitListener_success (os : OS) (m m' : Mem) (ln : Listener) :
  InitListener os m = (Done (Ok ln), m') ->
  listener (server m') = Some ln.
Proof.
  unfold InitListener. go_unfold.
  destruct (listener (server m)) as [ln0|] eqn:Hl.
  - intros [= <- <-]. exact Hl.
  - destruct (String.eqb (Addr (server m)) ""); [discriminate|].
    destruct (getNetListener os (Addr (server m)) m) as [[[ln1|e]|msg] m1];
      intros [= <- <-]; reflexivity.
Qed.

Lemma InitListener_fresh (os : OS) (m : Mem) :
  listener (server m) = None ->
  Addr (server m) <> "" ->
  InitListener os m
  = match getNetListener os (Addr (server m)) m with
    | (Done (Ok ln), m1) =>
        (Done (Ok ln),
         {| server := with_listener (server m) ln;
            configs := configs m1; trace := trace m1 |})
    | (Done (Err e), m1) => (Done (Err e), m1)
    | (Panic msg, m1) => (Panic msg, m1)
    end.
Proof.
  intros Hnil Ha. unfold InitListener. unfold mbind at 1, M_bind, get_server.
  rewrite Hnil. apply String.eqb_neq in Ha. rewrite Ha.
  unfold mbind, M_bind.
  destruct (getNetListener os (Addr (server m)) m) as [[[ln|e]|msg] m1];
    reflexivity.
Qed.

Lemma InitListener_empty_address (os : OS) (m : Mem) :
  listener (server m) = None ->
  Addr (server m) = "" ->
  InitListener os m = (Done (Err "listen to nil addr"), m).
Proof. intros Hnil Ha. unfold InitListener. go_unfold. now rewrite Hnil, Ha. Qed.

(** C8.  Once [InitListener] has succeeded with a listener, every later
    call, whatever else happened to the memory in between as long as the
    field [listener] was not reassigned, returns that same listener and
    leaves the memory as it is: no call is made, so nothing is bound or
    reconstructed again. *)
Theorem InitListener_idempotent :
  forall (os : OS) (m m' : Mem) (ln : Listener),
    InitListener os m = (Done (Ok ln), m') ->
    forall m2 : Mem,
      listener (server m2) = listener (server m') ->
      InitListener os m2 = (Done (Ok ln), m2).
Proof.
  intros os m m' ln H m2 Hsame.
  apply InitListener_acquired. rewrite Hsame.
  exact (InitListener_success os m m' ln H).
Qed.

(** C5 (as amended).  While no listener is held, an empty address fails
    with ["listen to nil addr"] before [isGraceful] is looked at, on the
    inheriting path too, and nothing is called.  With a non-empty address a
    graceful server makes the one call that reconstructs the listener from
    descriptor 3, which does not depend on the address, and a cold one
    makes the one call that binds the address. *)
Theorem InitListener_address_check :
  forall (os : OS) (m : Mem),
    listener (server m) = None ->
    (Addr (server m) = "" ->
       InitListener os m = (Done (Err "listen to nil addr"), m))
    /\ (Addr (server m) <> "" -> isGraceful (server m) = true ->
          fst (InitListener os m) = Done (inherited os (trace m))
          /\ trace (snd (InitListener os m))
             = trace m ++ [EvFileListener GRACEFUL_LISTENER_FD])
    /\ (Addr (server m) <> "" -> isGraceful (server m) = false ->
          fst (InitListener os m) = Done (bound os (trace m) (Addr (server m)))
          /\ trace (snd (InitListener os m))
             = trace m ++ [EvListen (Addr (server m))]).
Proof.
  intros os m Hnil. split; [|split].
  - apply InitListener_empty_address. exact Hnil.
  - intros Ha Hg. rewrite (InitListener_fresh os m Hnil Ha).
    rewrite (getNetListener_graceful os _ m Hg).
    destruct (inherited os (trace m)) as [ln|e]; split; reflexivity.
  - intros Ha Hg. rewrite (InitListener_fresh os m Hnil Ha).
    rewrite (getNetListener_cold os _ m Hg).
    destruct (bound os (trace m) (Addr (server m))) as [ln|e]; split; reflexivity.
Qed.

Lemma InitListener_idempotent_witness :
  InitListener cold_os cold_start_mem = (Done (Ok (SocketListener tcp 7)), cold_mem)
  /\ listener (server (mem cold_proc)) = listener (server cold_mem)
  /\ InitListener cold_os (mem cold_proc)
     = (Done (Ok (SocketListener tcp 7)), mem cold_proc).
Proof.
  split; [reflexivity|]. split; [reflexivity|].
  apply (InitListener_idempotent cold_os cold_start_mem cold_mem _ eq_refl).
  reflexivity.
Defined.

Lemma InitListener_address_check_witness :
  listener (server inherit_mem) = None
  /\ Addr (server inherit_mem) <> ""
  /\ isGraceful (server inherit_mem) = true
  /\ fst (InitListener inherit_os inherit_mem) = Done (Ok (SocketListener tcp 7))
  /\ trace (snd (InitListener inherit_os inherit_mem)) = [EvFileListener 3].
Proof.
  split; [reflexivity|]. split; [discriminate|]. split; [reflexivity|].
  apply (proj1 (proj2 (InitListener_address_check inherit_os inherit_mem eq_refl)));
    [discriminate | reflexivity].
Defined.

(** C5 as stated fails: a graceful server whose descriptor 3 holds a valid
    listening socket is refused for its empty address, and the descriptor is
    never looked at. *)
Lemma graceful_empty_address_rejected :
  isGraceful (server inherit_noaddr_mem) = true
  /\ inherited inherit_os (trace inherit_noaddr_mem) = Ok (SocketListener tcp 7)
  /\ InitListener inherit_os inherit_noaddr_mem
     = (Done (Err "listen to nil addr"), inherit_noaddr_mem)
  /\ trace (snd (InitListener inherit_os inherit_noaddr_mem)) = [].
Proof. repeat split; reflexivity. Qed.

(** ** Spawning the successor *)

Lemma shutdown_calls_app (t1 t2 : list Event) :
  shutdown_calls (t1 ++ t2) = shutdown_calls t1 + shutdown_calls t2.
Proof.
  induction t1 as [|ev t1 IH]; [reflexivity|].
  destruct ev; cbn [app shutdown_calls]; rewrite IH; reflexivity.
Qed.

Lemma getTCPListenerFd_tcp (os : OS) (m : Mem) (sock : nat) :
  listener (server m) = Some (SocketListener tcp sock) ->
  getTCPListenerFd os m
  = (Done (TCPListener_File os (trace m) sock), add_events m [EvFile sock]).
Proof.
  intros H. unfold getTCPListenerFd. go_unfold. rewrite H.
  destruct (TCPListener_File os (trace m) sock); reflexivity.
Qed.

Lemma getTCPListenerFd_other (os : OS) (m : Mem) :
  (forall sock, listener (server m) <> Some (SocketListener tcp sock)) ->
  exists msg, getTCPListenerFd os m = (Panic msg, m).
Proof.
  intros H. unfold getTCPListenerFd. go_unfold.
  destruct (listener (server m)) as [[[|] sock|inner config]|];
    try (eexists; reflexivity).
  now destruct (H sock).
Qed.

Lemma startNewProcess_tcp (os : OS) (m : Mem) (sock : nat) :
  listener (server m) = Some (SocketListener tcp sock) ->
  startNewProcess os m
  = match TCPListener_File os (trace m) sock with
    | Err e =>
        (Done (Err ("failed to get socket file descriptor: " ++ e)%string),
         add_events m [EvFile sock])
    | Ok fd =>
        (Done match StartProcess os (trace m ++ [EvFile sock])
                      (hd "" (Args os)) (Args os) (execSpec_of os fd) with
              | Ok fork => Ok fork
              | Err e => Err ("failed to forkexec: " ++ e)%string
              end,
         add_events m [EvFile sock;
                       EvStartProcess (hd "" (Args os)) (Args os) (execSpec_of os fd)])
    end.
Proof.
  intros Hl. unfold startNewProcess, mbind, M_bind.
  rewrite (getTCPListenerFd_tcp os m sock Hl).
  destruct (TCPListener_File os (trace m) sock) as [fd|e]; [|reflexivity].
  unfold get_trace, emit, mret, M_ret, add_events, execSpec_of.
  cbn [trace server configs].
  destruct (StartProcess os _ _ _ _); now rewrite <- app_assoc.
Qed.

Lemma startNewProcess_other (os : OS) (m : Mem) :
  (forall sock, listener (server m) <> Some (SocketListener tcp sock)) ->
  exists msg, startNewProcess os m = (Panic msg, m).
Proof.
  intros H. destruct (getTCPListenerFd_other os m H) as [msg Hp].
  exists msg. unfold startNewProcess, mbind, M_bind. now rewrite Hp.
Qed.

(** C4 (as amended).  [startNewProcess] returns an ordinary error, after
    the one call that duplicates the descriptor and without starting a
    process, when the plain listener is a [*net.TCPListener] whose [File]
    fails.  When it succeeds, the process is started with the descriptor as
    the fourth file.  A plain listener of any other type does not give an
    error value: the type assertion panics, before anything is called, so
    no process is started then either. *)
Theorem startNewProcess_descriptor :
  forall (os : OS) (m : Mem),
    match listener (server m) with
    | Some (SocketListener tcp sock) =>
        match TCPListener_File os (trace m) sock with
        | Err e =>
            startNewProcess os m
            = (Done (Err ("failed to get socket file descriptor: " ++ e)%string),
               add_events m [EvFile sock])
        | Ok fd =>
            trace (snd (startNewProcess os m))
            = trace m
              ++ [EvFile sock;
                  EvStartProcess (hd "" (Args os)) (Args os)
                    {| Env := successor_env (Environ os);
                       Files := [0; 1; 2; fd]%Z;
                       Setsid := true |}]
        end
    | _ => exists msg, startNewProcess os m = (Panic msg, m)
    end.
Proof.
  intros os m.
  destruct (listener (server m)) as [[[|] sock|inner config]|] eqn:Hl;
    try (apply startNewProcess_other; congruence).
  rewrite (startNewProcess_tcp os m sock Hl).
  destruct (TCPListener_File os (trace m) sock) as [fd|e]; reflexivity.
Qed.

(** C4 as stated fails: a process that inherited a Unix-domain socket holds
    a listener that is not a [*net.TCPListener]; on a restart signal
    [startNewProcess] does not return an error, it panics, which ends the
    process. *)
Lemma non_tcp_listener_panics :
  listener (server (mem unix_proc)) = Some (SocketListener unix 5)
  /\ fst (startNewProcess inherit_unix_os (mem unix_proc))
     = Panic "interface conversion: net.Listener is *net.UnixListener, not *net.TCPListener"
  /\ returns_error (fst (startNewProcess inherit_unix_os (mem unix_proc))) = false
  /\ option_map panicked (step inherit_unix_os (Deliver SIGHUP) unix_proc)
     = Some (Some "interface conversion: net.Listener is *net.UnixListener, not *net.TCPListener").
Proof. repeat split; reflexivity. Qed.

(** ** Signal dispatch *)


Lemma step_deliver (os : OS) (p : Proc) (sig : Z) :
  panicked p = None -> sigLoc p = SReceiving ->
  step os (Deliver sig) p = Some (run_sig (handleSignals_switch os sig) p).
Proof. intros Hp Hs. unfold step. now rewrite Hp, Hs. Qed.



(** A restart signal on a process whose descriptor cannot be duplicated:
    the failure is logged and the process goes on serving. *)
Example failed_handoff_keeps_serving :
  option_map (fun p => (sigLoc p, mainLoc p, shutdown_calls (trace (mem p)),
                        spawned_envs (trace (mem p)), panicked p))
    (step failing_os (Deliver SIGHUP) failing_proc)
  = Some (SReceiving, MServing, 0, [], None).
Proof. reflexivity. Qed.

(** ** Runs of a serving process *)

Lemma handleSignals_switch_loc (os : OS) (sig : Z) (m m' : Mem) (l : SigLoc) :
  handleSignals_switch os sig m = (Done l, m') ->
  l = SReceiving \/ l = SDraining.
Proof.
  unfold handleSignals_switch.
  destruct ((sig =? SIGQUIT)%Z || (sig =? SIGINT)%Z).
  - unfold shutdownHTTPServer. go_unfold. intros [= <- _]. now right.
  - destruct ((sig =? SIGHUP)%Z || (sig =? SIGTERM)%Z).
    + unfold log, emit. unfold mbind at 1 2, M_bind.
      unfold mbind at 1, M_bind.
      destruct (startNewProcess os _) as [[[pid|e]|msg] m2];
        unfold shutdownHTTPServer; go_unfold; intros [= <- _]; auto.
    + go_unfold. intros [= <- _]. now left.
Qed.

(** What one step does to the locations and to the count of publications. *)
Lemma step_effect (os : OS) (a : Action) (p p' : Proc) :
  step os a p = Some p' ->
  panicked p = None
  /\ match a with
     | Deliver _ =>
         sigLoc p = SReceiving /\ mainLoc p' = mainLoc p
         /\ published p' = published p
         /\ (sigLoc p' = SReceiving \/ sigLoc p' = SDraining)
     | Drained err =>
         sigLoc p = SDraining /\ mainLoc p' = mainLoc p
         /\ published p' = published p /\ panicked p' = None
         /\ sigLoc p' = match err with Some _ => SReceiving | None => SSending end
     | ServeReturns err =>
         mainLoc p = MServing /\ mainLoc p' = MWaiting err
         /\ published p' = published p /\ sigLoc p' = sigLoc p
     | Handshake =>
         sigLoc p = SSending /\ sigLoc p' = SReceiving
         /\ published p' = S (published p)
         /\ exists err, mainLoc p = MWaiting err /\ mainLoc p' = MReturned (Some err)
     end.
Proof.
  unfold step. destruct (panicked p); [discriminate|]. intros H.
  split; [reflexivity|]. destruct a as [sig|err|err|].
  - destruct (sigLoc p) eqn:Hs; try discriminate. injection H as <-.
    unfold run_sig.
    destruct (handleSignals_switch os sig (mem p)) as [[l|msg] m'] eqn:E;
      cbn [mainLoc published sigLoc]; repeat split; auto.
    exact (handleSignals_switch_loc os sig _ _ _ E).
  - destruct (sigLoc p) eqn:Hs; try discriminate. injection H as <-.
    unfold run_sig, shutdownHTTPServer_drained. go_unfold.
    destruct err; cbn [mainLoc published sigLoc panicked]; repeat split.
  - destruct (mainLoc p) eqn:Hm; destruct (sigLoc p); try discriminate;
      injection H as <-; repeat split.
  - destruct (sigLoc p) eqn:Hs; try discriminate.
    destruct (mainLoc p) as [|err|err] eqn:Hm; try discriminate.
    injection H as <-. repeat split. exists err. split; reflexivity.
Qed.

Lemma run_invariant (os : OS) (I : Proc -> Prop) :
  (forall a p p', I p -> step os a p = Some p' -> I p') ->
  forall acts p p', I p -> run os acts p = Some p' -> I p'.
Proof.
  intros Hstep acts. induction acts as [|a acts IH]; intros p p' Hp Hrun.
  - injection Hrun as <-. exact Hp.
  - cbn [run] in Hrun. destruct (step os a p) as [p1|] eqn:E; [|discriminate].
    exact (IH p1 p' (Hstep a p p1 Hp E) Hrun).
Qed.

Lemma run_app (os : OS) (acts1 acts2 : list Action) (p : Proc) :
  run os (acts1 ++ acts2) p
  = match run os acts1 p with
    | Some p1 => run os acts2 p1
    | None => None
    end.
Proof.
  revert p. induction acts1 as [|a acts1 IH]; intros p; [reflexivity|].
  cbn [app run]. destruct (step os a p); [apply IH | reflexivity].
Qed.

Lemma step_in_loop (os : OS) (a : Action) (p p' : Proc) :
  in_loop (sigLoc p) -> step os a p = Some p' -> in_loop (sigLoc p').
Proof.
  intros Hl Hstep. apply step_effect in Hstep as [_ H]. unfold in_loop in *.
  destruct a as [sig|err|err|].
  - destruct H as (_ & _ & _ & [-> | ->]); auto.
  - destruct H as (_ & _ & _ & _ & ->). destruct err; auto.
  - destruct H as (_ & _ & _ & ->). exact Hl.
  - destruct H as (_ & -> & _). auto.
Qed.

Lemma step_publication_inv (os : OS) (a : Action) (p p' : Proc) :
  publication_inv p -> step os a p = Some p' -> publication_inv p'.
Proof.
  unfold publication_inv. intros Hi Hstep.
  apply step_effect in Hstep as [_ H]. destruct a as [sig|err|err|].
  - destruct H as (_ & -> & -> & _). exact Hi.
  - destruct H as (_ & -> & -> & _). exact Hi.
  - destruct H as (Hm & -> & -> & _). rewrite Hm in Hi. exact Hi.
  - destruct H as (_ & _ & -> & err & Hm & ->). rewrite Hm in Hi.
    cbn [returned] in *. now rewrite Hi.
Qed.

Lemma stuck_after_return (os : OS) (p : Proc) :
  sigLoc p = SSending -> returned (mainLoc p) = true -> stuck os p.
Proof.
  intros Hs Hm a. unfold step. destruct (panicked p); [reflexivity|].
  rewrite Hs. destruct (mainLoc p); [discriminate Hm..|].
  destruct a; reflexivity.
Qed.

(** A value is sent, or was received, only after a drain succeeded. *)
Lemma run_needs_drain (os : OS) (acts : list Action) :
  forall p p',
    run os acts p = Some p' ->
    sigLoc p' = SSending \/ published p < published p' ->
    sigLoc p = SSending \/ existsb successful_drain acts = true.
Proof.
  induction acts as [|a acts IH]; intros p p' Hrun Hend.
  - injection Hrun as <-. destruct Hend as [H|H]; [now left | lia].
  - cbn [run] in Hrun. destruct (step os a p) as [p1|] eqn:E; [|discriminate].
    pose proof (step_effect os a p p1 E) as [_ H].
    cbn [existsb]. destruct a as [sig|err|err|].
    + destruct H as (_ & _ & Hpub & Hloc).
      destruct (IH p1 p' Hrun) as [Hs|Hd].
      * rewrite Hpub. exact Hend.
      * destruct Hloc as [Hl|Hl]; rewrite Hl in Hs; discriminate.
      * right. exact Hd.
    + destruct H as (_ & _ & Hpub & _ & Hloc).
      destruct err as [e|]; [|now right].
      destruct (IH p1 p' Hrun) as [Hs|Hd].
      * rewrite Hpub. exact Hend.
      * rewrite Hloc in Hs. discriminate.
      * right. exact Hd.
    + destruct H as (_ & _ & Hpub & Hloc).
      destruct (IH p1 p' Hrun) as [Hs|Hd].
      * rewrite Hpub. exact Hend.
      * left. now rewrite <- Hloc.
      * right. exact Hd.
    + destruct H as (Hs & _). now left.
Qed.

Lemma Serve_in_loop (m : Mem) : in_loop (sigLoc (Serve m)).
Proof. now left. Qed.

Lemma Serve_publication_inv (m : Mem) : publication_inv (Serve m).
Proof. reflexivity. Qed.

(** C6 (as amended).  [handleSignals] has no exit.  In every state a serving
    process can reach, the goroutine is at the receive, inside
    [srv.Shutdown] or at the send, never past its loop; a failed drain and a
    completed send both lead back to the receive; and at the receive the
    next signal, whichever it is, is taken and dispatched. *)
Theorem handleSignals_never_returns :
  forall (os : OS) (m : Mem) (acts : list Action) (p : Proc),
    run os acts (Serve m) = Some p ->
    sigLoc p <> SReturned
    /\ in_loop (sigLoc p)
    /\ (forall a p',
           step os a p = Some p' ->
           a = Handshake \/ (exists e, a = Drained (Some e)) ->
           sigLoc p' = SReceiving)
    /\ (panicked p = None -> sigLoc p = SReceiving ->
        forall sig, exists p', step os (Deliver sig) p = Some p').
Proof.
  intros os m acts p Hrun.
  assert (Hloop : in_loop (sigLoc p)).
  { apply (run_invariant os (fun q => in_loop (sigLoc q)) (step_in_loop os)
             acts (Serve m) p (Serve_in_loop m) Hrun). }
  split; [|split; [exact Hloop|split]].
  - destruct Hloop as [H|[H|H]]; rewrite H; discriminate.
  - intros a p' Hstep Ha. apply step_effect in Hstep as [_ H].
    destruct Ha as [-> | [e ->]].
    + now destruct H as (_ & -> & _).
    + now destruct H as (_ & _ & _ & _ & ->).
  - intros Hp Hs sig. eexists. apply (step_deliver os p sig Hp Hs).
Qed.

Lemma handleSignals_never_returns_witness :
  exists p,
    run cold_os shutdown_run (Serve cold_mem) = Some p
    /\ sigLoc p = SReceiving
    /\ sigLoc p <> SReturned
    /\ exists p', step cold_os (Deliver SIGQUIT) p = Some p'.
Proof.
  eexists. split; [reflexivity|]. split; [reflexivity|].
  destruct (handleSignals_never_returns cold_os cold_mem shutdown_run _ eq_refl)
    as (Hnot & _ & _ & Hnext).
  split; [exact Hnot|]. apply Hnext; reflexivity.
Defined.

(** C6 as stated fails: after an interrupt has been dispatched and the
    server shut down, the goroutine is back at the receive, not at its end,
    and it takes a further signal and calls [srv.Shutdown] again. *)
Lemma signal_loop_continues_after_shutdown :
  option_map (fun p => (sigLoc p, mainLoc p)) (run cold_os shutdown_run cold_proc)
  = Some (SReceiving, MReturned (Some "http: Server closed"))
  /\ option_map (fun p => (sigLoc p, shutdown_calls (trace (mem p))))
       (run cold_os (shutdown_run ++ [Deliver SIGQUIT]) cold_proc)
     = Some (SDraining, 2).
Proof. split; reflexivity. Qed.



(** C2 (as amended).  At most one value ever goes through the completion
    channel, it does so exactly when [Serve] returns, and only after a
    drain has succeeded.  Nothing guards against a second publication:
    every successful drain goes on to the send, without a panic, and when
    [Serve] has already returned the process can take no further step, so
    the signal goroutine stays blocked in that send for good. *)
Theorem completion_published_at_most_once :
  forall (os : OS) (m : Mem) (acts : list Action) (p : Proc),
    run os acts (Serve m) = Some p ->
    published p <= 1
    /\ (published p = 1 <-> returned (mainLoc p) = true)
    /\ (published p = 1 -> existsb successful_drain acts = true)
    /\ (forall p',
           step os (Drained None) p = Some p' ->
           sigLoc p' = SSending /\ panicked p' = None /\ published p' = published p)
    /\ (sigLoc p = SSending -> returned (mainLoc p) = true -> stuck os p).
Proof.
  intros os m acts p Hrun.
  assert (Hinv : publication_inv p).
  { apply (run_invariant os publication_inv (step_publication_inv os)
             acts (Serve m) p (Serve_publication_inv m) Hrun). }
  unfold publication_inv in Hinv.
  split; [|split; [|split; [|split]]].
  - destruct (returned (mainLoc p)); lia.
  - destruct (returned (mainLoc p)); split; intros H; try reflexivity; try lia;
      discriminate.
  - intros Hone. destruct (run_needs_drain os acts _ _ Hrun) as [Hs|Hd].
    + right. cbn [published Serve]. lia.
    + discriminate Hs.
    + exact Hd.
  - intros p' Hstep. apply step_effect in Hstep as [_ (_ & _ & Hp & Hk & Hs)].
    auto.
  - apply stuck_after_return.
Qed.

Lemma completion_published_at_most_once_witness :
  exists p,
    run cold_os double_shutdown_run (Serve cold_mem) = Some p
    /\ published p <= 1
    /\ (published p = 1 <-> returned (mainLoc p) = true).
Proof.
  eexists. split; [reflexivity|].
  destruct (completion_published_at_most_once cold_os cold_mem double_shutdown_run _
              eq_refl) as (Hle & Hiff & _).
  split; [exact Hle | exact Hiff].
Defined.

(** C2 as stated fails: when a second interrupt arrives after a completed
    shutdown and its drain succeeds as well, [srv.Shutdown] has been called
    twice, one value has gone through the channel, and the goroutine sits in
    the second send with nobody left to receive: no step is possible any
    more. *)
Lemma second_publication_blocks_forever :
  exists p,
    run cold_os double_shutdown_run cold_proc = Some p
    /\ shutdown_calls (trace (mem p)) = 2
    /\ published p = 1
    /\ mainLoc p = MReturned (Some "http: Server closed")
    /\ sigLoc p = SSending
    /\ panicked p = None
    /\ stuck cold_os p.
Proof.
  eexists. split; [reflexivity|]. repeat split.
  apply stuck_after_return; reflexivity.
Qed.

(** ** Starting on TLS *)

Lemma ListenAndServeTLS_setup_tail (os : OS) (certFile keyFile : string)
    (m : Mem) (p : nat) (c : Config) :
  (TLSConfig (server m) = Some p /\ configs m !! p = Some c)
  \/ (TLSConfig (server m) = None /\ p = fresh (dom (configs m)) /\ c = emptyConfig) ->
  ListenAndServeTLS_setup os certFile keyFile m
  = match LoadX509KeyPair os (trace m) certFile keyFile with
    | Err err => (Done (Some err), after_load os certFile keyFile m p c)
    | Ok _ =>
        match InitListener os (after_load os certFile keyFile m p c) with
        | (Done (Ok _), m2) =>
            (Done None,
             {| server := with_tlsListener (server m2)
                            (TLSListener (listener (server m2)) p);
                configs := configs m2; trace := trace m2 |})
        | (Done (Err err), m2) => (Done (Some err), m2)
        | (Panic msg, m2) => (Panic msg, m2)
        end
    end.
Proof.
  intros Hc. unfold ListenAndServeTLS_setup, after_load, prepared_config.
  destruct m as [srv cfgs t]. cbn [server configs trace] in *.
  go_unfold. cbn [server configs trace].
  destruct Hc as [[Hp Hl] | (Hp & -> & ->)]; rewrite Hp.
  - cbn [configs trace server NextProtos Certificates].
    rewrite Hl. destruct (NextProtos c) as [protos|] eqn:Hn;
      repeat (cbn [configs trace server NextProtos Certificates];
              rewrite ?Hl, ?lookup_insert_eq, ?insert_insert_eq, ?Hn);
      destruct (LoadX509KeyPair os t certFile keyFile) as [cert|err];
      try reflexivity;
      change (<[0%nat := cert]> [zeroCertificate]) with [cert];
      destruct (InitListener os _) as [[[ln|e]|msg] m2]; reflexivity.
  - unfold emptyConfig.
    repeat (cbn [configs trace server NextProtos Certificates];
            rewrite ?lookup_insert_eq, ?insert_insert_eq);
      destruct (LoadX509KeyPair os t certFile keyFile) as [cert|err];
      try reflexivity;
      change (<[0%nat := cert]> [zeroCertificate]) with [cert];
      destruct (InitListener os _) as [[[ln|e]|msg] m2]; reflexivity.
Qed.

Lemma InitListener_frame (os : OS) (m : Mem) :
  configs (snd (InitListener os m)) = configs m
  /\ TLSConfig (server (snd (InitListener os m))) = TLSConfig (server m)
  /\ (forall ln, listener (server m) = Some ln ->
                 listener (server (snd (InitListener os m))) = Some ln)
  /\ (forall ln, fst (InitListener os m) = Done (Ok ln) ->
                 listener (server (snd (InitListener os m))) = Some ln)
  /\ (exists evs,
         trace (snd (InitListener os m)) = trace m ++ evs
         /\ (evs = [] \/ evs = [EvListen (Addr (server m))]
             \/ evs = [EvFileListener GRACEFUL_LISTENER_FD])).
Proof.
  destruct (listener (server m)) as [ln0|] eqn:Hl.
  - rewrite (InitListener_acquired os m ln0 Hl). cbn [fst snd].
    split; [reflexivity|]. split; [reflexivity|].
    split; [intros ln [= <-]; exact Hl|].
    split; [intros ln [= <-]; exact Hl|].
    exists []. rewrite app_nil_r. auto.
  - destruct (String.eqb_spec (Addr (server m)) "") as [Ha|Ha].
    + rewrite (InitListener_empty_address os m Hl Ha). cbn [fst snd].
      split; [reflexivity|]. split; [reflexivity|].
      split; [discriminate|]. split; [discriminate|].
      exists []. rewrite app_nil_r. auto.
    + rewrite (InitListener_fresh os m Hl Ha).
      destruct (isGraceful (server m)) eqn:Hg.
      * rewrite (getNetListener_graceful os _ m Hg).
        destruct (inherited os (trace m)) as [ln|e];
          cbn [fst snd server configs trace with_listener TLSConfig listener];
          (split; [reflexivity|]); (split; [reflexivity|]);
          (split; [intros ln' Hl'; congruence|]);
          (split; [intros ln' [= <-]; reflexivity || discriminate|]);
          eexists; eauto.
      * rewrite (getNetListener_cold os _ m Hg).
        destruct (bound os (trace m) (Addr (server m))) as [ln|e];
          cbn [fst snd server configs trace with_listener TLSConfig listener];
          (split; [reflexivity|]); (split; [reflexivity|]);
          (split; [intros ln' Hl'; congruence|]);
          (split; [intros ln' [= <-]; reflexivity || discriminate|]);
          eexists; eauto.
Qed.

(** C9.  Whether the server has a caller-supplied config at [p] or a new one
    is made, [ListenAndServeTLS] leaves a negotiation list that was there as
    it was and puts the defaults only where there was none.  The calls it
    makes before serving are the key-pair load and at most one listener
    acquisition; a plain listener held before the call is still the plain
    listener after it, and on success the secure listener is a layer over
    the plain listener, which stays in its field. *)
Theorem tls_defaults_only_when_absent :
  forall (os : OS) (certFile keyFile : string) (m : Mem) (p : nat) (c : Config),
    (TLSConfig (server m) = Some p /\ configs m !! p = Some c)
    \/ (TLSConfig (server m) = None /\ p = fresh (dom (configs m)) /\ c = emptyConfig) ->
    let r := ListenAndServeTLS_setup os certFile keyFile m in
    (exists c',
        configs (snd r) !! p = Some c'
        /\ NextProtos c' = match NextProtos c with
                           | Some protos => Some protos
                           | None => Some ["h2"; "http/1.1"]
                           end)
    /\ (forall ln, listener (server m) = Some ln ->
                   listener (server (snd r)) = Some ln)
    /\ (fst r = Done None ->
        exists ln,
          fst (InitListener os (after_load os certFile keyFile m p c)) = Done (Ok ln)
          /\ listener (server (snd r)) = Some ln
          /\ tlsListener (server (snd r)) = Some (TLSListener (Some ln) p))
    /\ (exists evs,
           trace (snd r) = trace m ++ EvLoadX509KeyPair certFile keyFile :: evs
           /\ (evs = [] \/ evs = [EvListen (Addr (server m))]
               \/ evs = [EvFileListener GRACEFUL_LISTENER_FD])).
Proof.
  intros os certFile keyFile m p c Hc r. subst r.
  rewrite (ListenAndServeTLS_setup_tail os certFile keyFile m p c Hc).
  pose proof (InitListener_frame os (after_load os certFile keyFile m p c))
    as (Hcfg & _ & Hkeep & Hok & evs & Htr & Hevs).
  assert (Hlook : configs (after_load os certFile keyFile m p c) !! p
                  = Some (prepared_config c (LoadX509KeyPair os (trace m) certFile keyFile))).
  { unfold after_load. cbn [configs]. apply lookup_insert_eq. }
  destruct (LoadX509KeyPair os (trace m) certFile keyFile) as [cert|err] eqn:Hload.
  - destruct (InitListener os (after_load os certFile keyFile m p c))
      as [[[ln|e]|msg] m2] eqn:Hinit; cbn [fst snd server configs trace] in *.
    + split; [|split; [|split]].
      * eexists. rewrite Hcfg. split; [exact Hlook | reflexivity].
      * intros ln' Hl. cbn [with_tlsListener listener]. now apply Hkeep.
      * intros _. exists ln. cbn [with_tlsListener listener tlsListener].
        rewrite (Hok ln eq_refl). auto.
      * exists evs. rewrite Htr. unfold after_load at 1. cbn [trace].
        rewrite <- app_assoc. auto.
    + split; [|split; [|split]].
      * eexists. rewrite Hcfg. split; [exact Hlook | reflexivity].
      * intros ln' Hl. now apply Hkeep.
      * discriminate.
      * exists evs. rewrite Htr. unfold after_load at 1. cbn [trace].
        rewrite <- app_assoc. auto.
    + split; [|split; [|split]].
      * eexists. rewrite Hcfg. split; [exact Hlook | reflexivity].
      * intros ln' Hl. now apply Hkeep.
      * discriminate.
      * exists evs. rewrite Htr. unfold after_load at 1. cbn [trace].
        rewrite <- app_assoc. auto.
  - cbn [fst snd]. split; [|split; [|split]].
    + eexists. split; [exact Hlook | reflexivity].
    + intros ln' Hl. exact Hl.
    + discriminate.
    + exists []. auto.
Qed.

Lemma tls_defaults_only_when_absent_witness :
  TLSConfig (server tls_mem) = Some 4%nat
  /\ configs tls_mem !! 4%nat = Some caller_config
  /\ exists c',
       configs (snd (ListenAndServeTLS_setup cold_os "cert.pem" "key.pem" tls_mem))
         !! 4%nat = Some c'
       /\ NextProtos c' = Some ["http/1.1"].
Proof.
  split; [reflexivity|]. split; [reflexivity|].
  exact (proj1 (tls_defaults_only_when_absent cold_os "cert.pem" "key.pem" tls_mem
                  4%nat caller_config (or_introl (conj eq_refl eq_refl)))).
Defined.

(** C10.  With a caller-supplied config at [p], [ListenAndServeTLS] writes
    into that very object: afterwards the store differs from before only
    at [p], where the certificate list is the one-element list of what the
    key-pair load returned (the zero certificate when it failed) and the
    negotiation list is the old one or, if there was none, the defaults.  No
    object is added, the server still points at [p], and on success the
    secure listener uses [p].  The key-pair load is the first call made;
    when it fails its error is returned with no other call made and the
    server object unchanged, so nothing has been bound. *)
Theorem tls_config_mutated_in_place :
  forall (os : OS) (certFile keyFile : string) (m : Mem) (p : nat) (c : Config),
    TLSConfig (server m) = Some p ->
    configs m !! p = Some c ->
    let loaded := LoadX509KeyPair os (trace m) certFile keyFile in
    let r := ListenAndServeTLS_setup os certFile keyFile m in
    configs (snd r) = <[p := prepared_config c loaded]> (configs m)
    /\ dom (configs (snd r)) = dom (configs m)
    /\ TLSConfig (server (snd r)) = Some p
    /\ (fst r = Done None ->
        tlsListener (server (snd r)) = Some (TLSListener (listener (server (snd r))) p))
    /\ (exists evs,
           trace (snd r) = trace m ++ EvLoadX509KeyPair certFile keyFile :: evs)
    /\ (forall err, loaded = Err err ->
          fst r = Done (Some err)
          /\ trace (snd r) = trace m ++ [EvLoadX509KeyPair certFile keyFile]
          /\ server (snd r) = server m).
Proof.
  intros os certFile keyFile m p c Hp Hl loaded r. subst r loaded.
  rewrite (ListenAndServeTLS_setup_tail os certFile keyFile m p c
             (or_introl (conj Hp Hl))).
  pose proof (InitListener_frame os (after_load os certFile keyFile m p c))
    as (Hcfg & Htls & _ & _ & evs & Htr & _).
  assert (Hdom : dom (<[p := prepared_config c (LoadX509KeyPair os (trace m) certFile keyFile)]>
                        (configs m)) = dom (configs m)).
  { rewrite dom_insert_L. apply subseteq_union_1_L, singleton_subseteq_l.
    apply elem_of_dom. now exists c. }
  destruct (LoadX509KeyPair os (trace m) certFile keyFile) as [cert|err] eqn:Hload.
  - destruct (InitListener os (after_load os certFile keyFile m p c))
      as [[[ln|e]|msg] m2] eqn:Hinit; cbn [fst snd server configs trace] in *;
      rewrite ?Hcfg; cbn [with_tlsListener TLSConfig tlsListener listener];
      rewrite ?Htls; unfold after_load at 1 2; cbn [configs server];
      rewrite ?Hload;
      (split; [reflexivity|]); (split; [exact Hdom|]); (split; [exact Hp|]);
      (split; [try discriminate; reflexivity|]);
      (split; [exists evs; rewrite Htr; unfold after_load; cbn [trace];
               now rewrite <- app_assoc|]);
      discriminate.
  - cbn [fst snd]. unfold after_load at 1 2 3. cbn [configs server trace].
    rewrite Hload.
    split; [reflexivity|]. split; [exact Hdom|]. split; [exact Hp|].
    split; [discriminate|]. split; [exists []; reflexivity|].
    intros err' [= <-]. unfold after_load. cbn [trace server]. auto.
Qed.

Lemma tls_config_mutated_in_place_witness :
  TLSConfig (server tls_mem) = Some 4%nat
  /\ configs tls_mem !! 4%nat = Some caller_config
  /\ configs (snd (ListenAndServeTLS_setup cold_os "cert.pem" "key.pem" tls_mem))
     = <[4%nat := {| NextProtos := Some ["http/1.1"]; Certificates := ["pair"] |}]>
         (configs tls_mem).
Proof.
  split; [reflexivity|]. split; [reflexivity|].
  exact (proj1 (tls_config_mutated_in_place cold_os "cert.pem" "key.pem" tls_mem
                  4%nat caller_config eq_refl eq_refl)).
Defined.

(** * Further properties *)

(** ** The environment and [NewServer] *)

Lemma cut_entry_join (entry k v : string) :
  cut_entry entry = Some (k, v) -> entry = (k ++ "=" ++ v)%string.
Proof.
  revert k v. induction entry as [|c rest IH]; intros k v; cbn [cut_entry];
    [discriminate|].
  destruct (Ascii.eqb_spec c "="%char) as [-> | Hc].
  - intros [= <- <-]. reflexivity.
  - destruct (cut_entry rest) as [[k0 v0]|]; [|discriminate].
    intros [= <- <-]. cbn [String.append]. now rewrite (IH k0 v0 eq_refl).
Qed.

Lemma Getenv_missing (key : string) (environ : list string) :
  List.Forall (fun e => has_key key e = false) environ ->
  Getenv key environ = "".
Proof.
  induction 1 as [|e environ He _ IH]; cbn [Getenv]; [reflexivity|].
  unfold has_key in He. destruct (cut_entry e) as [[k v]|]; [|exact IH].
  now rewrite He.
Qed.

Lemma Getenv_app_nonempty (key : string) (l1 l2 : list string) :
  ~ In (key ++ "=")%string l1 ->
  Getenv key l2 <> "" ->
  Getenv key (l1 ++ l2) <> "".
Proof.
  intros Hno Hl2. induction l1 as [|e l1 IH]; [exact Hl2|].
  cbn [app Getenv].
  assert (Hrest : ~ In (key ++ "=")%string l1) by (intros H; apply Hno; now right).
  destruct (cut_entry e) as [[k v]|] eqn:Hc; [|exact (IH Hrest)].
  destruct (String.eqb_spec k key) as [-> | Hk]; [|exact (IH Hrest)].
  intros ->. apply Hno. left. exact (cut_entry_join e key "" Hc).
Qed.

Lemma filter_not_marker_In (s : string) (environ : list string) :
  In s (List.filter not_marker environ) -> In s environ.
Proof. intros H. now apply List.filter_In in H as [H _]. Qed.

Lemma successor_env_graceful (environ : list string) :
  ~ In (GRACEFUL_ENVIRON_KEY ++ "=")%string environ ->
  isGraceful_of_environ (successor_env environ) = true.
Proof.
  intros Hno. unfold isGraceful_of_environ.
  destruct (String.eqb_spec (Getenv GRACEFUL_ENVIRON_KEY (successor_env environ)) "")
    as [He|He]; [|reflexivity].
  exfalso. revert He. rewrite successor_env_filter.
  apply Getenv_app_nonempty.
  - intros H. apply Hno. exact (filter_not_marker_In _ _ H).
  - discriminate.
Qed.

(** X1.  A process whose environment has no entry of the marker variable
    constructs a server that is not graceful, and starting it on a
    non-empty address makes one call to bind that address and no call to
    reconstruct a listener from a descriptor; the engine serves on the bound
    socket, or the bind error is what remains. *)
Theorem cold_start_binds :
  forall (os : OS) (addr : string) (readTimeout writeTimeout : Z) (m : Mem),
    List.Forall (fun e => has_key GRACEFUL_ENVIRON_KEY e = false) (Environ os) ->
    addr <> "" ->
    server m = NewServer os addr readTimeout writeTimeout ->
    isGraceful (server m) = false
    /\ trace (mem (ListenAndServe os m))
       = trace m
         ++ EvListen addr
            :: match net_Listen os (trace m) addr with
               | Ok sock => [EvServe (Some (SocketListener tcp sock))]
               | Err _ => []
               end.
Proof.
  intros os addr rt wt m Henv Haddr Hsrv.
  assert (Hg : isGraceful (server m) = false).
  { rewrite Hsrv. cbn [NewServer isGraceful]. unfold isGraceful_of_environ.
    now rewrite (Getenv_missing _ _ Henv). }
  split; [exact Hg|].
  assert (Hnil : listener (server m) = None) by now rewrite Hsrv.
  assert (Ha : Addr (server m) <> "") by now rewrite Hsrv.
  assert (Htl : tlsListener (server m) = None) by now rewrite Hsrv.
  unfold ListenAndServe.
  rewrite (InitListener_fresh os m Hnil Ha), (getNetListener_cold os _ m Hg).
  replace (Addr (server m)) with addr by now rewrite Hsrv.
  unfold bound. destruct (net_Listen os (trace m) addr) as [sock|e].
  - unfold Serve. cbn [mem trace server with_listener tlsListener listener].
    rewrite Htl. now rewrite <- app_assoc.
  - reflexivity.
Qed.

Lemma cold_start_binds_witness :
  List.Forall (fun e => has_key GRACEFUL_ENVIRON_KEY e = false) (Environ cold_os)
  /\ ":8080" <> ""
  /\ server cold_start_mem = NewServer cold_os ":8080" 0 0
  /\ isGraceful (server cold_start_mem) = false
  /\ trace (mem (ListenAndServe cold_os cold_start_mem))
     = [EvListen ":8080"; EvServe (Some (SocketListener tcp 7))].
Proof.
  assert (He : List.Forall (fun e => has_key GRACEFUL_ENVIRON_KEY e = false)
                 (Environ cold_os)) by (repeat constructor).
  split; [exact He|]. split; [discriminate|]. split; [reflexivity|].
  exact (cold_start_binds cold_os ":8080" 0 0 cold_start_mem He
           ltac:(discriminate) eq_refl).
Defined.

(** X2.  The handoff works across the restart: a process started with the
    environment that [startNewProcess] builds constructs a graceful server,
    provided the parent's environment holds no entry [IS_GRACEFUL=] with an
    empty value; acquiring the listener then makes the one call that
    reconstructs it from descriptor 3 and binds nothing. *)
Theorem successor_reconstructs :
  forall (parent child : OS) (addr : string) (readTimeout writeTimeout : Z) (m : Mem),
    ~ In (GRACEFUL_ENVIRON_KEY ++ "=")%string (Environ parent) ->
    Environ child = successor_env (Environ parent) ->
    addr <> "" ->
    server m = NewServer child addr readTimeout writeTimeout ->
    isGraceful (server m) = true
    /\ fst (InitListener child m) = Done (inherited child (trace m))
    /\ trace (snd (InitListener child m))
       = trace m ++ [EvFileListener GRACEFUL_LISTENER_FD].
Proof.
  intros parent child addr rt wt m Hno Henv Haddr Hsrv.
  assert (Hg : isGraceful (server m) = true).
  { rewrite Hsrv. cbn [NewServer isGraceful]. rewrite Henv.
    now apply successor_env_graceful. }
  split; [exact Hg|].
  assert (Hnil : listener (server m) = None) by now rewrite Hsrv.
  assert (Ha : Addr (server m) <> "") by now rewrite Hsrv.
  rewrite (InitListener_fresh child m Hnil Ha), (getNetListener_graceful child _ m Hg).
  destruct (inherited child (trace m)) as [ln|e]; split; reflexivity.
Qed.

Lemma successor_reconstructs_witness :
  ~ In (GRACEFUL_ENVIRON_KEY ++ "=")%string (Environ cold_os)
  /\ Environ inherit_os = successor_env (Environ cold_os)
  /\ ":8080" <> ""
  /\ server inherit_mem = NewServer inherit_os ":8080" 0 0
  /\ isGraceful (server inherit_mem) = true
  /\ fst (InitListener inherit_os inherit_mem) = Done (Ok (SocketListener tcp 7)).
Proof.
  assert (Hno : ~ In (GRACEFUL_ENVIRON_KEY ++ "=")%string (Environ cold_os)).
  { intros [H|[]]. discriminate H. }
  split; [exact Hno|]. split; [reflexivity|]. split; [discriminate|].
  split; [reflexivity|].
  destruct (successor_reconstructs cold_os inherit_os ":8080" 0 0 inherit_mem Hno
              eq_refl ltac:(discriminate) eq_refl) as (Hg & Hres & _).
  split; [exact Hg | exact Hres].
Defined.

(** ** Spawning and acquisition: outcomes and frames *)



Lemma startNewProcess_events (os : OS) (m : Mem) :
  exists evs,
    snd (startNewProcess os m) = add_events m evs
    /\ forallb handoff_event evs = true
    /\ length evs <= 2.
Proof.
  destruct (listener (server m)) as [[[|] sock|inner config]|] eqn:Hl;
    try (destruct (startNewProcess_other os m) as [msg ->]; [congruence|];
         exists []; unfold add_events; rewrite app_nil_r; destruct m;
         repeat split; cbn; lia).
  rewrite (startNewProcess_tcp os m sock Hl).
  destruct (TCPListener_File os (trace m) sock) as [fd|e]; eexists;
    (split; [reflexivity|]); split; cbn; try reflexivity; lia.
Qed.

(** X4.  Whatever its outcome (a process id, an error or a panic),
    [startNewProcess] leaves the server object and every [tls.Config]
    untouched and makes at most two calls, each of them a descriptor
    duplication or a process start: it binds nothing, reconstructs nothing
    and does not call [srv.Shutdown]. *)
Theorem startNewProcess_touches_nothing :
  forall (os : OS) (m : Mem),
    exists evs,
      snd (startNewProcess os m) = add_events m evs
      /\ forallb handoff_event evs = true
      /\ length evs <= 2.
Proof. exact startNewProcess_events. Qed.

Lemma InitListener_cases :
  forall (os : OS) (m : Mem),
    configs (snd (InitListener os m)) = configs m
    /\ match fst (InitListener os m) with
       | Done (Ok ln) =>
           server (snd (InitListener os m)) = with_listener (server m) ln
       | Done (Err e) =>
           server (snd (InitListener os m)) = server m
           /\ listener (server m) = None
           /\ (e = "listen to nil addr"
               \/ (exists e0, e = ("net.Listen error: " ++ e0)%string)
               \/ (exists e0, e = ("net.FileListener error: " ++ e0)%string))
       | Panic _ => False
       end.
Proof.
  intros os m. destruct (listener (server m)) as [ln0|] eqn:Hl.
  - rewrite (InitListener_acquired os m ln0 Hl). cbn [fst snd].
    split; [reflexivity|]. unfold with_listener. rewrite <- Hl.
    now destruct (server m).
  - destruct (String.eqb_spec (Addr (server m)) "") as [Ha|Ha].
    + rewrite (InitListener_empty_address os m Hl Ha). cbn [fst snd]. auto.
    + rewrite (InitListener_fresh os m Hl Ha).
      destruct (isGraceful (server m)) eqn:Hg.
      * rewrite (getNetListener_graceful os _ m Hg). unfold inherited.
        destruct (net_FileListener os (trace m) GRACEFUL_LISTENER_FD)
          as [[network sock]|e0]; cbn [fst snd server configs];
          (split; [reflexivity|]); [reflexivity|].
        split; [reflexivity|]. split; [reflexivity|]. right. right. now exists e0.
      * rewrite (getNetListener_cold os _ m Hg). unfold bound.
        destruct (net_Listen os (trace m) (Addr (server m))) as [sock|e0];
          cbn [fst snd server configs];
          (split; [reflexivity|]); [reflexivity|].
        split; [reflexivity|]. split; [reflexivity|]. right. left. now exists e0.
Qed.

(** X5.  [InitListener] never panics and never touches a [tls.Config].  When
    it fails the server object is exactly as before and still holds no
    listener; its error is ["listen to nil addr"] or the system's error
    behind the prefix of the path taken.  When it
    succeeds the server object differs from before in its field [listener]
    only. *)
Theorem InitListener_outcome :
  forall (os : OS) (m : Mem),
    configs (snd (InitListener os m)) = configs m
    /\ match fst (InitListener os m) with
       | Done (Ok ln) =>
           server (snd (InitListener os m)) = with_listener (server m) ln
       | Done (Err e) =>
           server (snd (InitListener os m)) = server m
           /\ listener (server m) = None
           /\ (e = "listen to nil addr"
               \/ (exists e0, e = ("net.Listen error: " ++ e0)%string)
               \/ (exists e0, e = ("net.FileListener error: " ++ e0)%string))
       | Panic _ => False
       end.
Proof. exact InitListener_cases. Qed.

(** ** Starting up *)

Lemma stuck_not_served (os : OS) (e : error) (m : Mem) :
  stuck os (not_served (Done e) m).
Proof. intros a. destruct a; reflexivity. Qed.

Lemma InitListener_tlsListener (os : OS) (m : Mem) :
  tlsListener (server (snd (InitListener os m))) = tlsListener (server m).
Proof.
  pose proof (InitListener_cases os m) as [_ H].
  destruct (fst (InitListener os m)) as [[ln|e]|msg].
  - now rewrite H.
  - destruct H as [H _]. now rewrite H.
  - destruct H.
Qed.

(** X6.  [ListenAndServe] serves only if the listener was acquired.  When
    acquisition fails, the error is returned as it is, the server object is
    unchanged, the signal goroutine is never started and the engine never
    called, so nothing can happen in the process on the package's account.
    When it succeeds, the signal goroutine is started and the engine serves
    on the acquired listener, or on the secure listener if an earlier TLS
    start left one in the server. *)
Theorem ListenAndServe_startup :
  forall (os : OS) (m : Mem),
    match fst (InitListener os m) with
    | Done (Err e) =>
        ListenAndServe os m = not_served (Done e) (snd (InitListener os m))
        /\ mainLoc (ListenAndServe os m) = MReturned (Some e)
        /\ sigLoc (ListenAndServe os m) = SIdle
        /\ server (mem (ListenAndServe os m)) = server m
        /\ stuck os (ListenAndServe os m)
    | Done (Ok ln) =>
        mainLoc (ListenAndServe os m) = MServing
        /\ sigLoc (ListenAndServe os m) = SReceiving
        /\ trace (mem (ListenAndServe os m))
           = trace (snd (InitListener os m))
             ++ [EvServe (Some match tlsListener (server m) with
                               | Some tl => tl
                               | None => ln
                               end)]
    | Panic _ => False
    end.
Proof.
  intros os m. unfold ListenAndServe.
  pose proof (InitListener_cases os m) as [_ H].
  pose proof (InitListener_tlsListener os m) as Htl.
  destruct (InitListener os m) as [[[ln|e]|msg] m'] eqn:Hinit; cbn [fst snd] in *.
  - split; [reflexivity|]. split; [reflexivity|].
    unfold Serve. cbn [mem trace]. rewrite Htl, H.
    cbn [with_listener listener]. now destruct (tlsListener (server m)).
  - destruct H as (Hsrv & _). split; [reflexivity|]. split; [reflexivity|].
    split; [reflexivity|]. split; [exact Hsrv|]. apply stuck_not_served.
  - exact H.
Qed.

Lemma ListenAndServeTLS_cases (os : OS) (certFile keyFile : string)
    (m : Mem) (p : nat) (c : Config) :
  (TLSConfig (server m) = Some p /\ configs m !! p = Some c)
  \/ (TLSConfig (server m) = None /\ p = fresh (dom (configs m)) /\ c = emptyConfig) ->
  ListenAndServeTLS os certFile keyFile m
  = match LoadX509KeyPair os (trace m) certFile keyFile with
    | Err err => not_served (Done err) (after_load os certFile keyFile m p c)
    | Ok _ =>
        match InitListener os (after_load os certFile keyFile m p c) with
        | (Done (Ok _), m2) =>
            Serve {| server := with_tlsListener (server m2)
                                 (TLSListener (listener (server m2)) p);
                     configs := configs m2; trace := trace m2 |}
        | (Done (Err err), m2) => not_served (Done err) m2
        | (Panic msg, m2) => not_served (Panic msg) m2
        end
    end.
Proof.
  intros Hc. unfold ListenAndServeTLS.
  rewrite (ListenAndServeTLS_setup_tail os certFile keyFile m p c Hc).
  destruct (LoadX509KeyPair os (trace m) certFile keyFile) as [cert|err];
    [|reflexivity].
  destruct (InitListener os _) as [[[ln|e]|msg] m2]; reflexivity.
Qed.

(** X7.  [ListenAndServeTLS] serves only if the key pair was loaded and the
    listener acquired.  A load error or an acquisition error is returned as
    it is, with the signal goroutine never started, the engine never called
    and no secure listener stored; nothing can happen afterwards.  On
    success the signal goroutine is started and the engine serves on the
    secure listener that wraps the acquired plain listener with the config
    at [p]. *)
Theorem ListenAndServeTLS_startup :
  forall (os : OS) (certFile keyFile : string) (m : Mem) (p : nat) (c : Config),
    (TLSConfig (server m) = Some p /\ configs m !! p = Some c)
    \/ (TLSConfig (server m) = None /\ p = fresh (dom (configs m)) /\ c = emptyConfig) ->
    match LoadX509KeyPair os (trace m) certFile keyFile with
    | Err e =>
        mainLoc (ListenAndServeTLS os certFile keyFile m) = MReturned (Some e)
        /\ sigLoc (ListenAndServeTLS os certFile keyFile m) = SIdle
        /\ server (mem (ListenAndServeTLS os certFile keyFile m)) = server m
        /\ trace (mem (ListenAndServeTLS os certFile keyFile m))
           = trace m ++ [EvLoadX509KeyPair certFile keyFile]
        /\ stuck os (ListenAndServeTLS os certFile keyFile m)
    | Ok _ =>
        match fst (InitListener os (after_load os certFile keyFile m p c)) with
        | Done (Err e) =>
            mainLoc (ListenAndServeTLS os certFile keyFile m) = MReturned (Some e)
            /\ sigLoc (ListenAndServeTLS os certFile keyFile m) = SIdle
            /\ server (mem (ListenAndServeTLS os certFile keyFile m)) = server m
            /\ stuck os (ListenAndServeTLS os certFile keyFile m)
        | Done (Ok ln) =>
            mainLoc (ListenAndServeTLS os certFile keyFile m) = MServing
            /\ sigLoc (ListenAndServeTLS os certFile keyFile m) = SReceiving
            /\ listener (server (mem (ListenAndServeTLS os certFile keyFile m)))
               = Some ln
            /\ last (trace (mem (ListenAndServeTLS os certFile keyFile m)))
               = Some (EvServe (Some (TLSListener (Some ln) p)))
        | Panic _ => False
        end
    end.
Proof.
  intros os certFile keyFile m p c Hc.
  rewrite (ListenAndServeTLS_cases os certFile keyFile m p c Hc).
  destruct (LoadX509KeyPair os (trace m) certFile keyFile) as [cert|err] eqn:Hload.
  - pose proof (InitListener_cases os (after_load os certFile keyFile m p c))
      as [_ H].
    destruct (InitListener os (after_load os certFile keyFile m p c))
      as [[[ln|e]|msg] m2]; cbn [fst snd] in *.
    + split; [reflexivity|]. split; [reflexivity|].
      unfold Serve. cbn [mem server trace with_tlsListener listener tlsListener].
      rewrite H. cbn [with_listener listener]. split; [reflexivity|].
      apply last_snoc.
    + destruct H as (Hsrv & _). split; [reflexivity|]. split; [reflexivity|].
      split; [exact Hsrv|]. apply stuck_not_served.
    + exact H.
  - split; [reflexivity|]. split; [reflexivity|]. split; [reflexivity|].
    split; [reflexivity|]. apply stuck_not_served.
Qed.

Lemma ListenAndServeTLS_startup_witness :
  TLSConfig (server tls_mem) = Some 4%nat
  /\ configs tls_mem !! 4%nat = Some caller_config
  /\ mainLoc (ListenAndServeTLS cold_os "cert.pem" "key.pem" tls_mem) = MServing
  /\ last (trace (mem (ListenAndServeTLS cold_os "cert.pem" "key.pem" tls_mem)))
     = Some (EvServe (Some (TLSListener (Some (SocketListener tcp 7)) 4))).
Proof.
  split; [reflexivity|]. split; [reflexivity|].
  pose proof (ListenAndServeTLS_startup cold_os "cert.pem" "key.pem" tls_mem
                4%nat caller_config (or_introl (conj eq_refl eq_refl))) as H.
  cbv beta iota delta [cold_os LoadX509KeyPair] in H.
  destruct H as (Hm & _ & _ & Hlast). split; [exact Hm | exact Hlast].
Defined.

(** ** Whole runs *)

Lemma handleSignals_switch_shutdown (os : OS) (sig : Z) (m : Mem) :
  (sig =? SIGQUIT)%Z || (sig =? SIGINT)%Z = true ->
  handleSignals_switch os sig m
  = (Done SDraining,
     add_events m [EvLog "info" "received %s, graceful shutting down HTTP server.";
                   EvShutdown]).
Proof.
  intros H. unfold handleSignals_switch. rewrite H.
  unfold shutdownHTTPServer, add_events. go_unfold. go_unfold.
  cbn [trace server configs]. now rewrite <- app_assoc.
Qed.

Lemma handleSignals_switch_restart (os : OS) (sig : Z) (m : Mem) :
  (sig =? SIGQUIT)%Z || (sig =? SIGINT)%Z = false ->
  (sig =? SIGHUP)%Z || (sig =? SIGTERM)%Z = true ->
  handleSignals_switch os sig m
  = match startNewProcess os
            (add_events m [EvLog "info" "received %s, graceful restarting HTTP server."]) with
    | (Done (Ok _), m2) =>
        (Done SDraining,
         add_events m2 [EvLog "info" "start new process successed, the new pid is %d.";
                        EvShutdown])
    | (Done (Err _), m2) =>
        (Done SReceiving,
         add_events m2 [EvLog "warn" "start new process failed: %v, continue serving."])
    | (Panic msg, m2) => (Panic msg, m2)
    end.
Proof.
  intros H1 H2. unfold handleSignals_switch. rewrite H1, H2.
  unfold log, emit. unfold mbind at 1 2, M_bind.
  fold (add_events m [EvLog "info" "received %s, graceful restarting HTTP server."]).
  unfold mbind at 1, M_bind.
  destruct (startNewProcess os _) as [[[pid|e]|msg] m2]; try reflexivity;
    unfold shutdownHTTPServer; go_unfold; unfold add_events;
    cbn [trace server configs]; now rewrite <- ?app_assoc.
Qed.

Lemma handleSignals_switch_other (os : OS) (sig : Z) (m : Mem) :
  (sig =? SIGQUIT)%Z || (sig =? SIGINT)%Z = false ->
  (sig =? SIGHUP)%Z || (sig =? SIGTERM)%Z = false ->
  handleSignals_switch os sig m = (Done SReceiving, m).
Proof. intros H1 H2. unfold handleSignals_switch. now rewrite H1, H2. Qed.

Lemma add_events_add_events (m : Mem) (evs1 evs2 : list Event) :
  add_events (add_events m evs1) evs2 = add_events m (evs1 ++ evs2).
Proof. unfold add_events. cbn [server configs trace]. f_equal. now rewrite <- app_assoc. Qed.

Lemma shutdown_calls_handoff (evs : list Event) :
  forallb handoff_event evs = true -> shutdown_calls evs = 0.
Proof.
  induction evs as [|ev evs IH]; [reflexivity|].
  cbn [forallb]. intros [Hev Hrest]%andb_true_iff.
  destruct ev; try discriminate Hev; cbn [shutdown_calls]; auto.
Qed.

(** The events one turn of the loop adds, and what it leaves alone. *)
Lemma handleSignals_switch_events (os : OS) (sig : Z) (m : Mem) :
  exists evs,
    snd (handleSignals_switch os sig m) = add_events m evs
    /\ shutdown_calls evs <= (if delivers_notified (Deliver sig) then 1 else 0)
    /\ (delivers_restart (Deliver sig) = false ->
        existsb handoff_event evs = false
        /\ exists l, fst (handleSignals_switch os sig m) = Done l).
Proof.
  cbn [delivers_notified delivers_restart].
  destruct ((sig =? SIGQUIT)%Z || (sig =? SIGINT)%Z) eqn:H1.
  - rewrite (handleSignals_switch_shutdown os sig m H1). eexists.
    split; [reflexivity|]. cbn [orb shutdown_calls existsb handoff_event fst].
    split; [lia|]. intros _. split; [reflexivity | eauto].
  - cbn [orb]. destruct ((sig =? SIGHUP)%Z || (sig =? SIGTERM)%Z) eqn:H2.
    + rewrite (handleSignals_switch_restart os sig m H1 H2).
      destruct (startNewProcess_events os
                  (add_events m [EvLog "info" "received %s, graceful restarting HTTP server."]))
        as (evs & Hm & Hh & _).
      pose proof (shutdown_calls_handoff evs Hh) as Hs.
      destruct (startNewProcess os _) as [[[pid|e]|msg] m2]; cbn [snd] in *;
        subst m2; rewrite ?add_events_add_events; eexists;
        (split; [reflexivity|]); (split; [|discriminate]);
        rewrite ?shutdown_calls_app, Hs; cbn [shutdown_calls]; lia.
    + rewrite (handleSignals_switch_other os sig m H1 H2). exists [].
      unfold add_events. rewrite app_nil_r. destruct m.
      cbn [snd fst shutdown_calls existsb].
      split; [reflexivity|]. split; [lia|]. intros _. split; [reflexivity | eauto].
Qed.

Lemma step_events (os : OS) (a : Action) (p p' : Proc) :
  step os a p = Some p' ->
  exists evs,
    mem p' = add_events (mem p) evs
    /\ shutdown_calls evs <= (if delivers_notified a then 1 else 0)
    /\ (delivers_restart a = false ->
        existsb handoff_event evs = false /\ panicked p' = None).
Proof.
  unfold step. destruct (panicked p); [discriminate|].
  destruct a as [sig|err|err|].
  - destruct (sigLoc p); try discriminate. intros [= <-].
    destruct (handleSignals_switch_events os sig (mem p)) as (evs & Hm & Hs & Hr).
    exists evs. unfold run_sig.
    destruct (handleSignals_switch os sig (mem p)) as [[l|msg] m'];
      cbn [snd fst mem panicked] in *; (split; [exact Hm|]); (split; [exact Hs|]);
      intros Hd; destruct (Hr Hd) as (Hh & l' & Hl); split; auto; discriminate.
  - destruct (sigLoc p); try discriminate. intros [= <-].
    unfold run_sig, shutdownHTTPServer_drained. go_unfold.
    destruct err; eexists; cbn [mem panicked]; (split; [reflexivity|]);
      cbn; (split; [lia|]); auto.
  - destruct (mainLoc p); destruct (sigLoc p); try discriminate; intros [= <-];
      eexists; cbn [mem panicked]; (split; [reflexivity|]);
      cbn; (split; [lia|]); auto.
  - destruct (sigLoc p); try discriminate.
    destruct (mainLoc p); try discriminate. intros [= <-].
    eexists; cbn [mem panicked]; (split; [reflexivity|]);
      cbn; (split; [lia|]); auto.
Qed.

Lemma run_snoc (os : OS) (acts : list Action) (a : Action) (p0 p : Proc) :
  run os (acts ++ [a]) p0 = Some p ->
  exists p1, run os acts p0 = Some p1 /\ step os a p1 = Some p.
Proof.
  rewrite run_app. destruct (run os acts p0) as [p1|]; [|discriminate].
  cbn [run]. destruct (step os a p1) as [p2|] eqn:E; [|discriminate].
  intros [= <-]. now exists p1.
Qed.

(** Induction along a run, with the actions taken so far in view. *)
Lemma run_history (os : OS) (p0 : Proc) (I : list Action -> Proc -> Prop) :
  I [] p0 ->
  (forall acts a p p', I acts p -> step os a p = Some p' -> I (acts ++ [a]) p') ->
  forall acts p, run os acts p0 = Some p -> I acts p.
Proof.
  intros H0 Hstep acts. induction acts as [|a acts IH] using rev_ind; intros p Hrun.
  - injection Hrun as <-. exact H0.
  - apply run_snoc in Hrun as (p1 & Hrun & Hs).
    exact (Hstep acts a p1 p (IH p1 Hrun) Hs).
Qed.

Lemma engine_returns_app (acts1 acts2 : list Action) :
  engine_returns (acts1 ++ acts2) = engine_returns acts1 ++ engine_returns acts2.
Proof.
  induction acts1 as [|a acts1 IH]; [reflexivity|].
  destruct a; cbn [app engine_returns]; now rewrite IH.
Qed.

(** X8.  The engine returns at most once, and [Serve] returns exactly the
    error the engine returned with: while the engine runs it has not
    returned, while [Serve] waits for the completion signal it has returned
    once, and when [Serve] has returned, a handshake on the completion channel
    has happened and the value returned is that one error, never nil. *)
Theorem Serve_returns_engine_error :
  forall (os : OS) (m : Mem) (acts : list Action) (p : Proc),
    run os acts (Serve m) = Some p ->
    match mainLoc p with
    | MServing => engine_returns acts = [] /\ ~ In Handshake acts
    | MWaiting e => engine_returns acts = [e] /\ ~ In Handshake acts
    | MReturned r =>
        exists e, r = Some e /\ engine_returns acts = [e] /\ In Handshake acts
    end.
Proof.
  intros os m.
  apply (run_history os (Serve m)
           (fun acts p =>
              match mainLoc p with
              | MServing => engine_returns acts = [] /\ ~ In Handshake acts
              | MWaiting e => engine_returns acts = [e] /\ ~ In Handshake acts
              | MReturned r =>
                  exists e, r = Some e /\ engine_returns acts = [e] /\ In Handshake acts
              end)); [split; [reflexivity | intros []]|].
  intros acts a p p' Hi Hstep.
  apply step_effect in Hstep as [_ H]. rewrite engine_returns_app.
  assert (Hkeep : forall a0, a0 <> Handshake ->
                    ~ In Handshake acts -> ~ In Handshake (acts ++ [a0])).
  { intros a0 Ha0 Hn [Hin|[Hin|[]]]%in_app_or; auto. }
  destruct a as [sig|err|err|]; cbn [engine_returns].
  - destruct H as (_ & -> & _). rewrite app_nil_r.
    destruct (mainLoc p) as [|e|r].
    + destruct Hi as [He Hn]. split; [exact He|]. now apply Hkeep.
    + destruct Hi as [He Hn]. split; [exact He|]. now apply Hkeep.
    + destruct Hi as (e & -> & He & Hh). exists e. repeat split; auto.
      apply in_or_app. now left.
  - destruct H as (_ & -> & _). rewrite app_nil_r.
    destruct (mainLoc p) as [|e|r].
    + destruct Hi as [He Hn]. split; [exact He|]. now apply Hkeep.
    + destruct Hi as [He Hn]. split; [exact He|]. now apply Hkeep.
    + destruct Hi as (e & -> & He & Hh). exists e. repeat split; auto.
      apply in_or_app. now left.
  - destruct H as (Hm & -> & _). rewrite Hm in Hi. destruct Hi as [He Hn].
    rewrite He. split; [reflexivity|]. now apply Hkeep.
  - destruct H as (_ & _ & _ & e & Hm & ->). rewrite Hm in Hi.
    destruct Hi as [He _]. exists e. rewrite app_nil_r.
    repeat split; auto. apply in_or_app. right. now left.
Qed.

Lemma Serve_returns_engine_error_witness :
  exists p,
    run cold_os shutdown_run (Serve cold_mem) = Some p
    /\ mainLoc p = MReturned (Some "http: Server closed")
    /\ exists e,
         Some "http: Server closed" = Some e
         /\ engine_returns shutdown_run = [e]
         /\ In Handshake shutdown_run.
Proof.
  eexists. split; [reflexivity|]. split; [reflexivity|].
  exact (Serve_returns_engine_error cold_os cold_mem shutdown_run _ eq_refl).
Defined.

Lemma existsb_snoc {A} (f : A -> bool) (l : list A) (a : A) :
  existsb f (l ++ [a]) = existsb f l || f a.
Proof. rewrite existsb_app. cbn [existsb]. now rewrite orb_false_r. Qed.

(** X9.  Only a restart signal makes the process duplicate the descriptor
    or start another process, and only then can the package panic: in a run
    in which neither [SIGHUP] nor [SIGTERM] is delivered, no such call is
    added to the trace and the process has not panicked. *)
Theorem no_restart_signal_no_spawn :
  forall (os : OS) (m : Mem) (acts : list Action) (p : Proc),
    run os acts (Serve m) = Some p ->
    existsb delivers_restart acts = false ->
    panicked p = None
    /\ exists evs,
         mem p = add_events (mem (Serve m)) evs
         /\ existsb handoff_event evs = false.
Proof.
  intros os m.
  apply (run_history os (Serve m)
           (fun acts p =>
              existsb delivers_restart acts = false ->
              panicked p = None
              /\ exists evs,
                   mem p = add_events (mem (Serve m)) evs
                   /\ existsb handoff_event evs = false)).
  - intros _. split; [reflexivity|]. exists [].
    unfold add_events. rewrite app_nil_r. split; reflexivity.
  - intros acts a p p' IH Hstep. rewrite existsb_snoc.
    intros [Hacts Ha]%orb_false_iff.
    destruct (IH Hacts) as (_ & evs & Hm & Hh).
    destruct (step_events os a p p' Hstep) as (evs' & Hm' & _ & Hr).
    destruct (Hr Ha) as [Hh' Hp]. split; [exact Hp|].
    exists (evs ++ evs'). rewrite Hm', Hm, add_events_add_events.
    split; [reflexivity|]. rewrite existsb_app, Hh, Hh'. reflexivity.
Qed.

Lemma no_restart_signal_no_spawn_witness :
  exists p,
    run cold_os double_shutdown_run (Serve cold_mem) = Some p
    /\ existsb delivers_restart double_shutdown_run = false
    /\ panicked p = None
    /\ spawned_envs (trace (mem p)) = [].
Proof.
  eexists. split; [reflexivity|]. split; [reflexivity|].
  destruct (no_restart_signal_no_spawn cold_os cold_mem double_shutdown_run _
              eq_refl eq_refl) as (Hp & _).
  split; [exact Hp | reflexivity].
Defined.

(** X10.  [srv.Shutdown] is called only in answer to a signal, at most once
    per subscribed signal delivered: along any run, the calls added to the
    trace are no more than the deliveries of [SIGQUIT], [SIGINT], [SIGHUP]
    and [SIGTERM]. *)
Theorem shutdown_calls_bounded :
  forall (os : OS) (m : Mem) (acts : list Action) (p : Proc),
    run os acts (Serve m) = Some p ->
    shutdown_calls (trace (mem p))
    <= shutdown_calls (trace m) + length (List.filter delivers_notified acts).
Proof.
  intros os m.
  apply (run_history os (Serve m)
           (fun acts p =>
              shutdown_calls (trace (mem p))
              <= shutdown_calls (trace m)
                 + length (List.filter delivers_notified acts))).
  - cbn [Serve mem trace]. rewrite shutdown_calls_app. cbn. lia.
  - intros acts a p p' IH Hstep.
    destruct (step_events os a p p' Hstep) as (evs & Hm & Hs & _).
    rewrite Hm. cbn [add_events trace]. rewrite shutdown_calls_app.
    rewrite List.filter_app, length_app. cbn [List.filter].
    destruct (delivers_notified a); cbn [length]; lia.
Qed.

Lemma shutdown_calls_bounded_witness :
  exists p,
    run cold_os double_shutdown_run (Serve cold_mem) = Some p
    /\ shutdown_calls (trace (mem p)) <= 0 + 2.
Proof.
  eexists. split; [reflexivity|].
  exact (shutdown_calls_bounded cold_os cold_mem double_shutdown_run _ eq_refl).
Defined.



(** ** Subscription and dispatch *)

Lemma add_events_neq (m : Mem) (evs : list Event) :
  evs <> [] -> add_events m evs <> m.
Proof.
  intros Hne Heq. apply (f_equal (fun x => length (trace x))) in Heq.
  cbn [add_events trace] in Heq. rewrite length_app in Heq.
  destruct evs; [congruence | cbn [length] in Heq; lia].
Qed.

(** X12.  The signals [handleSignals] subscribes to are exactly the signals
    its switch acts on: for each of the four, a turn of the loop does
    something (it logs, and calls out or panics), and for every other number
    the turn changes nothing and the goroutine is back at the receive. *)
Theorem notified_signals_are_the_handled :
  forall (os : OS) (sig : Z) (m : Mem),
    In sig notified_signals
    <-> handleSignals_switch os sig m <> (Done SReceiving, m).
Proof.
  intros os sig m. unfold notified_signals. cbn [In].
  destruct ((sig =? SIGQUIT)%Z || (sig =? SIGINT)%Z) eqn:H1.
  - split.
    + intros _. rewrite (handleSignals_switch_shutdown os sig m H1). discriminate.
    + intros _. apply orb_true_iff in H1 as [H|H]; apply Z.eqb_eq in H; auto.
  - destruct ((sig =? SIGHUP)%Z || (sig =? SIGTERM)%Z) eqn:H2.
    + split.
      * intros _. rewrite (handleSignals_switch_restart os sig m H1 H2).
        destruct (startNewProcess_events os
                    (add_events m [EvLog "info" "received %s, graceful restarting HTTP server."]))
          as (evs & Hm & _).
        destruct (startNewProcess os _) as [[[pid|e]|msg] m2]; try discriminate.
        cbn [snd] in Hm. subst m2. rewrite !add_events_add_events.
        intros [= Heq]. revert Heq. apply add_events_neq. discriminate.
      * intros _. apply orb_true_iff in H2 as [H|H]; apply Z.eqb_eq in H; auto.
    + split.
      * apply orb_false_iff in H1 as [Hq Hi]. apply orb_false_iff in H2 as [Hh Ht].
        apply Z.eqb_neq in Hq, Hi, Hh, Ht.
        intros [H|[H|[H|[H|[]]]]]; congruence.
      * intros Hne. destruct Hne. exact (handleSignals_switch_other os sig m H1 H2).
Qed.

(** ** TLS without a config of the caller's *)



(** ** A graceful restart, start to finish *)


